(** * coedit: timeline data model, editing engine, compositor and export loop

    A shallow embedding of the TypeScript sources of the editor:

    - [src/store/elementStore.ts]   (the element list and its mutations;
                                     in the tree it follows
                                     [src/types/element.ts])
    - [src/components/timeline/TimelinePanel.tsx] (snapping, trim, blade)
    - [src/components/canvas/CanvasViewport.tsx]  (live preview rendering)
    - [src/services/exportPipeline.ts]            (export rendering and loop)
    - [src/components/autocut/AutoCutPanel.tsx]   (region materialization)
    - the subtitle interchange module             (parseSRT, parseVTT)

    JavaScript numbers are modelled as exact rationals [Q]: every time value
    is a rational number of seconds and arithmetic does not round.  Computed
    numbers are compared with [==]; values that the code merely copies are
    compared with [=]. *)

From Stdlib Require Import QArith Qminmax Qabs Qround Lqa ZArith Lia.
From Stdlib Require Import String Ascii List Bool.
From Stdlib Require DecimalString.
From stdpp Require Import base option list gmap strings.

Open Scope Q_scope.

(* ================================================================== *)
(** ** Numbers *)

Module Math.

Definition max (a b : Q) : Q := Qmax a b.
Definition min (a b : Q) : Q := Qmin a b.
Definition abs (a : Q) : Q := Qabs a.

(** [Math.round] rounds to the nearest integer, halves upwards. *)
Definition round (a : Q) : Q := inject_Z (Qfloor (a + (1 # 2))).
Definition floor (a : Q) : Z := Qfloor a.
Definition ceil (a : Q) : Z := Qceiling a.

(** The comparison operators of the source, as booleans. *)
Definition ltb (a b : Q) : bool :=
  match a ?= b with Lt => true | _ => false end.
Definition leb (a b : Q) : bool :=
  match a ?= b with Gt => false | _ => true end.
Definition geb (a b : Q) : bool := leb b a.
Definition gtb (a b : Q) : bool := ltb b a.

End Math.

(** Modelled from the spec: [clamp] of [src/utils/math.ts], whose source is
    not part of the tree ("Time Utilities: pure numeric helpers: clamping").
    It forces a value into the closed range [[lo, hi]]. *)
Definition clamp (v lo hi : Q) : Q := Math.min (Math.max v lo) hi.

(** [x || 0] on a number that may be undefined. *)
Definition or_zero (x : option Q) : Q :=
  match x with
  | Some v => if Qeq_bool v 0 then 0 else v
  | None => 0
  end.

(** [x || 1] on a number that may be undefined. *)
Definition or_one (x : option Q) : Q :=
  match x with
  | Some v => if Qeq_bool v 0 then 1 else v
  | None => 1
  end.

(* ================================================================== *)
(** ** The element model ([src/types/element.ts]) *)

Inductive ElementType :=
  | text | shape | circle | image | video | audio | subtitle.

Inductive AnimationType :=
  | none | fadeIn | fadeOut | slideLeft | slideRight | slideUp
  | scaleUp | scaleDown | rotateIn | bounceIn | typewriter | blurIn | glitch.

Inductive EasingType := linear | ease_in | ease_out | ease_in_out | bounce.

Inductive BlendMode := normal | multiply | screen | overlay | soft_light.

Inductive TextAlign := align_left | align_center | align_right.
Inductive ObjectFit := fit_cover | fit_contain | fit_fill.
Inductive SubtitlePosition := pos_top | pos_center | pos_bottom.

Module Cue.
Record t := mk
  { id : string;
    startTime : Q;
    endTime : Q;
    text : string }.
End Cue.

(** An element is a flat object.  The fields of [BaseElement] are always
    present; the fields of the type-specific interfaces are optional
    properties of the object ([None] is [undefined]). *)
Module El.
Record t := mk
  { id : string;
    type : ElementType;
    name : string;
    x : Q;
    y : Q;
    width : Q;
    height : Q;
    rotation : Q;
    opacity : Q;
    visible : bool;
    locked : bool;
    startTime : Q;
    duration : Q;
    animation : AnimationType;
    animationExit : AnimationType;
    animDuration : Q;
    animExitDuration : Q;
    easing : EasingType;
    filter : string;
    blendMode : BlendMode;
    shadow : bool;
    borderRadius : Q;
    trackId : string;
    (* TextElement *)
    content : option string;
    fontSize : option Q;
    fontFamily : option string;
    fontWeight : option string;
    color : option string;
    textAlign : option TextAlign;
    (* ShapeElement *)
    fill : option string;
    stroke : option string;
    strokeWidth : option Q;
    (* ImageElement, VideoElement, AudioElement *)
    mediaAssetId : option string;
    src : option string;
    objectFit : option ObjectFit;
    trimIn : option Q;
    trimOut : option Q;
    playbackRate : option Q;
    volume : option Q;
    muted : option bool;
    fadeInDuration : option Q;
    fadeOutDuration : option Q;
    pan : option Q;
    (* SubtitleElement *)
    cues : option (list Cue.t);
    backgroundColor : option string;
    position : option SubtitlePosition }.
End El.

Abbreviation Element := El.t.

(** *** Object literals and the spread operator

    A patch ([Partial<Element>]) and the right-hand part of an object
    literal [{ ...e, k1: v1, k2: v2 }] are lists of key/value pairs; when a
    key occurs twice the later occurrence wins. *)

Inductive NumKey :=
  | k_x | k_y | k_width | k_height | k_rotation | k_opacity
  | k_startTime | k_duration | k_animDuration | k_animExitDuration
  | k_borderRadius | k_fontSize | k_strokeWidth | k_trimIn | k_trimOut
  | k_playbackRate | k_volume | k_fadeInDuration | k_fadeOutDuration | k_pan.

Inductive StrKey :=
  | k_id | k_name | k_filter | k_trackId | k_content | k_fontFamily
  | k_fontWeight | k_color | k_fill | k_stroke | k_mediaAssetId | k_src
  | k_backgroundColor.

Inductive BoolKey := k_visible | k_locked | k_shadow | k_muted.

Inductive AnimKey := k_animation | k_animationExit.

Inductive Prop_ :=
  | PNum (k : NumKey) (v : Q)
  | PStr (k : StrKey) (v : string)
  | PBool (k : BoolKey) (v : bool)
  | PAnim (k : AnimKey) (v : AnimationType)
  | PType (v : ElementType)
  | PEasing (v : EasingType)
  | PBlendMode (v : BlendMode)
  | PTextAlign (v : TextAlign)
  | PObjectFit (v : ObjectFit)
  | PPosition (v : SubtitlePosition)
  | PCues (v : list Cue.t).

Definition Patch := list Prop_.

Definition NumKey_eqb (a b : NumKey) : bool :=
  match a, b with
  | k_x, k_x | k_y, k_y | k_width, k_width | k_height, k_height
  | k_rotation, k_rotation | k_opacity, k_opacity
  | k_startTime, k_startTime | k_duration, k_duration
  | k_animDuration, k_animDuration
  | k_animExitDuration, k_animExitDuration
  | k_borderRadius, k_borderRadius | k_fontSize, k_fontSize
  | k_strokeWidth, k_strokeWidth | k_trimIn, k_trimIn
  | k_trimOut, k_trimOut | k_playbackRate, k_playbackRate
  | k_volume, k_volume | k_fadeInDuration, k_fadeInDuration
  | k_fadeOutDuration, k_fadeOutDuration | k_pan, k_pan => true
  | _, _ => false
  end.

Definition StrKey_eqb (a b : StrKey) : bool :=
  match a, b with
  | k_id, k_id | k_name, k_name | k_filter, k_filter
  | k_trackId, k_trackId | k_content, k_content
  | k_fontFamily, k_fontFamily | k_fontWeight, k_fontWeight
  | k_color, k_color | k_fill, k_fill | k_stroke, k_stroke
  | k_mediaAssetId, k_mediaAssetId | k_src, k_src
  | k_backgroundColor, k_backgroundColor => true
  | _, _ => false
  end.

Definition BoolKey_eqb (a b : BoolKey) : bool :=
  match a, b with
  | k_visible, k_visible | k_locked, k_locked
  | k_shadow, k_shadow | k_muted, k_muted => true
  | _, _ => false
  end.

Definition AnimKey_eqb (a b : AnimKey) : bool :=
  match a, b with
  | k_animation, k_animation | k_animationExit, k_animationExit => true
  | _, _ => false
  end.

(** The value a literal gives to a key: the last pair with that key. *)
Section Lookup.
Context {A : Type} (sel : Prop_ -> option A).

Fixpoint lookup_last (p : Patch) (acc : option A) : option A :=
  match p with
  | [] => acc
  | f :: p' =>
      lookup_last p' (match sel f with Some v => Some v | None => acc end)
  end.
End Lookup.

Definition get_num (k : NumKey) (p : Patch) : option Q :=
  lookup_last
    (fun f => match f with
              | PNum k' v => if NumKey_eqb k k' then Some v else None
              | _ => None
              end) p None.

Definition get_str (k : StrKey) (p : Patch) : option string :=
  lookup_last
    (fun f => match f with
              | PStr k' v => if StrKey_eqb k k' then Some v else None
              | _ => None
              end) p None.

Definition get_bool (k : BoolKey) (p : Patch) : option bool :=
  lookup_last
    (fun f => match f with
              | PBool k' v => if BoolKey_eqb k k' then Some v else None
              | _ => None
              end) p None.

Definition get_anim (k : AnimKey) (p : Patch) : option AnimationType :=
  lookup_last
    (fun f => match f with
              | PAnim k' v => if AnimKey_eqb k k' then Some v else None
              | _ => None
              end) p None.

Definition get_type (p : Patch) : option ElementType :=
  lookup_last (fun f => match f with PType v => Some v | _ => None end) p None.
Definition get_easing (p : Patch) : option EasingType :=
  lookup_last (fun f => match f with PEasing v => Some v | _ => None end) p None.
Definition get_blendMode (p : Patch) : option BlendMode :=
  lookup_last (fun f => match f with PBlendMode v => Some v | _ => None end) p None.
Definition get_textAlign (p : Patch) : option TextAlign :=
  lookup_last (fun f => match f with PTextAlign v => Some v | _ => None end) p None.
Definition get_objectFit (p : Patch) : option ObjectFit :=
  lookup_last (fun f => match f with PObjectFit v => Some v | _ => None end) p None.
Definition get_position (p : Patch) : option SubtitlePosition :=
  lookup_last (fun f => match f with PPosition v => Some v | _ => None end) p None.
Definition get_cues (p : Patch) : option (list Cue.t) :=
  lookup_last (fun f => match f with PCues v => Some v | _ => None end) p None.

(** A required field takes the literal's value when the key is given. *)
Definition over {A : Type} (old : A) (new : option A) : A :=
  match new with Some v => v | None => old end.

(** An optional field likewise, and otherwise stays as it was. *)
Definition over_opt {A : Type} (old new : option A) : option A :=
  match new with Some v => Some v | None => old end.

(** [{ ...e, ...p }] *)
Definition spread (e : Element) (p : Patch) : Element :=
  {| El.id := over (El.id e) (get_str k_id p);
     El.type := over (El.type e) (get_type p);
     El.name := over (El.name e) (get_str k_name p);
     El.x := over (El.x e) (get_num k_x p);
     El.y := over (El.y e) (get_num k_y p);
     El.width := over (El.width e) (get_num k_width p);
     El.height := over (El.height e) (get_num k_height p);
     El.rotation := over (El.rotation e) (get_num k_rotation p);
     El.opacity := over (El.opacity e) (get_num k_opacity p);
     El.visible := over (El.visible e) (get_bool k_visible p);
     El.locked := over (El.locked e) (get_bool k_locked p);
     El.startTime := over (El.startTime e) (get_num k_startTime p);
     El.duration := over (El.duration e) (get_num k_duration p);
     El.animation := over (El.animation e) (get_anim k_animation p);
     El.animationExit := over (El.animationExit e) (get_anim k_animationExit p);
     El.animDuration := over (El.animDuration e) (get_num k_animDuration p);
     El.animExitDuration :=
       over (El.animExitDuration e) (get_num k_animExitDuration p);
     El.easing := over (El.easing e) (get_easing p);
     El.filter := over (El.filter e) (get_str k_filter p);
     El.blendMode := over (El.blendMode e) (get_blendMode p);
     El.shadow := over (El.shadow e) (get_bool k_shadow p);
     El.borderRadius := over (El.borderRadius e) (get_num k_borderRadius p);
     El.trackId := over (El.trackId e) (get_str k_trackId p);
     El.content := over_opt (El.content e) (get_str k_content p);
     El.fontSize := over_opt (El.fontSize e) (get_num k_fontSize p);
     El.fontFamily := over_opt (El.fontFamily e) (get_str k_fontFamily p);
     El.fontWeight := over_opt (El.fontWeight e) (get_str k_fontWeight p);
     El.color := over_opt (El.color e) (get_str k_color p);
     El.textAlign := over_opt (El.textAlign e) (get_textAlign p);
     El.fill := over_opt (El.fill e) (get_str k_fill p);
     El.stroke := over_opt (El.stroke e) (get_str k_stroke p);
     El.strokeWidth := over_opt (El.strokeWidth e) (get_num k_strokeWidth p);
     El.mediaAssetId := over_opt (El.mediaAssetId e) (get_str k_mediaAssetId p);
     El.src := over_opt (El.src e) (get_str k_src p);
     El.objectFit := over_opt (El.objectFit e) (get_objectFit p);
     El.trimIn := over_opt (El.trimIn e) (get_num k_trimIn p);
     El.trimOut := over_opt (El.trimOut e) (get_num k_trimOut p);
     El.playbackRate := over_opt (El.playbackRate e) (get_num k_playbackRate p);
     El.volume := over_opt (El.volume e) (get_num k_volume p);
     El.muted := over_opt (El.muted e) (get_bool k_muted p);
     El.fadeInDuration :=
       over_opt (El.fadeInDuration e) (get_num k_fadeInDuration p);
     El.fadeOutDuration :=
       over_opt (El.fadeOutDuration e) (get_num k_fadeOutDuration p);
     El.pan := over_opt (El.pan e) (get_num k_pan p);
     El.cues := over_opt (El.cues e) (get_cues p);
     El.backgroundColor :=
       over_opt (El.backgroundColor e) (get_str k_backgroundColor p);
     El.position := over_opt (El.position e) (get_position p) |}.

(** [a === b] on strings. *)
Definition str_eqb (a b : string) : bool := String.eqb a b.

(** Two elements agree on every field that the literal [mask] does not
    set. *)
Definition agree_except (mask : Patch) (a b : Element) : Prop :=
  spread a mask = spread b mask.

(* ================================================================== *)
(** ** Element factories ([src/utils/elementFactory.ts])

    Each factory is an object literal [{ ...baseDefaults, id: uid(), ...,
    ...overrides }]; [newId] is the identifier [uid()] returned. *)

(** [overrides.name || fallback] *)
Definition name_or (overrides : Patch) (fallback : string) : string :=
  match get_str k_name overrides with
  | Some n => if str_eqb n "" then fallback else n
  | None => fallback
  end.

(** [{ ...baseDefaults, id, type, name, x, y, width, height }] *)
Definition with_baseDefaults (id : string) (type : ElementType) (name : string)
    (x y width height : Q) : Element :=
  {| El.id := id; El.type := type; El.name := name;
     El.x := x; El.y := y; El.width := width; El.height := height;
     El.rotation := 0; El.opacity := 1; El.visible := true;
     El.locked := false; El.startTime := 0; El.duration := 10;
     El.animation := none; El.animationExit := none;
     El.animDuration := 6 # 10; El.animExitDuration := 6 # 10;
     El.easing := ease_out; El.filter := "none"; El.blendMode := normal;
     El.shadow := false; El.borderRadius := 0; El.trackId := "";
     El.content := None; El.fontSize := None; El.fontFamily := None;
     El.fontWeight := None; El.color := None; El.textAlign := None;
     El.fill := None; El.stroke := None; El.strokeWidth := None;
     El.mediaAssetId := None; El.src := None; El.objectFit := None;
     El.trimIn := None; El.trimOut := None; El.playbackRate := None;
     El.volume := None; El.muted := None; El.fadeInDuration := None;
     El.fadeOutDuration := None; El.pan := None; El.cues := None;
     El.backgroundColor := None; El.position := None |}.

(** [createTextElement]; [rx] and [ry] are the two values [Math.random()]
    returned. *)
Definition createTextElement (newId : string) (rx ry : Q) (overrides : Patch)
  : Element :=
  let name :=
    match get_str k_content overrides with
    | Some c =>
        let n := String.substring 0 20 c in
        if str_eqb n "" then "Text" else n
    | None => "Text"
    end in
  spread
    (spread
       (with_baseDefaults newId text name
          (160 + rx * 200) (100 + ry * 120) 200 60)
       [PStr k_content "Your Text"; PNum k_fontSize 32;
        PStr k_fontFamily "Georgia"; PStr k_fontWeight "bold";
        PStr k_color "#ffffff"; PTextAlign align_center])
    overrides.

Definition createVideoElement (newId : string) (overrides : Patch) : Element :=
  spread
    (spread
       (with_baseDefaults newId video (name_or overrides "Video")
          0 0 1920 1080)
       [PStr k_mediaAssetId ""; PStr k_src ""; PNum k_trimIn 0;
        PNum k_trimOut
          (match get_num k_duration overrides with
           | Some d => if Qeq_bool d 0 then 10 else d
           | None => 10
           end);
        PNum k_playbackRate 1; PNum k_volume 1; PBool k_muted false;
        PObjectFit fit_contain])
    overrides.

Definition createAudioElement (newId : string) (overrides : Patch) : Element :=
  spread
    (spread
       (with_baseDefaults newId audio (name_or overrides "Audio") 0 0 0 0)
       [PStr k_mediaAssetId ""; PStr k_src ""; PNum k_trimIn 0;
        PNum k_trimOut
          (match get_num k_duration overrides with
           | Some d => if Qeq_bool d 0 then 10 else d
           | None => 10
           end);
        PNum k_volume 1; PNum k_fadeInDuration 0; PNum k_fadeOutDuration 0;
        PNum k_pan 0])
    overrides.


(* ================================================================== *)
(** ** The element store ([src/store/elementStore.ts]) *)

(** [ids.includes(i)] *)
Definition includes (ids : list string) (i : string) : bool :=
  existsb (str_eqb i) ids.

Module Store.

(** [selectedIds] is a [Set<string>]; it is kept as the list of its
    members in insertion order, which is the order [[...selectedIds]]
    enumerates them in. *)
Record t := mk
  { elements : list Element;
    selectedIds : list string }.

Definition addElement (el : Element) (s : t) : t :=
  {| elements := elements s ++ [el]; selectedIds := selectedIds s |}.

Definition addElements (els : list Element) (s : t) : t :=
  {| elements := elements s ++ els; selectedIds := selectedIds s |}.

Definition updateElement (id : string) (patch : Patch) (s : t) : t :=
  {| elements :=
       List.map (fun e => if str_eqb (El.id e) id then spread e patch else e)
         (elements s);
     selectedIds := selectedIds s |}.

Definition deleteElements (ids : list string) (s : t) : t :=
  {| elements :=
       List.filter (fun e => negb (includes ids (El.id e))) (elements s);
     selectedIds :=
       List.filter (fun i => negb (includes ids i)) (selectedIds s) |}.

Definition setElements (els : list Element) (s : t) : t :=
  {| elements := els; selectedIds := selectedIds s |}.

End Store.

(** The timing invariants of the data model. *)
Definition timing_ok (e : Element) : Prop :=
  (1 # 10) <= El.duration e /\ 0 <= El.startTime e.

(** A run of [updateElement] calls. *)
Definition updateAll (calls : list (string * Patch)) (s : Store.t) : Store.t :=
  fold_left (fun s c => Store.updateElement (fst c) (snd c) s) calls s.

(** A patch that does not itself break the timing invariants: when it sets
    [duration] the value is at least 0.1, when it sets [startTime] the value
    is not negative. *)
Definition patch_timing_ok (p : Patch) : Prop :=
  (forall d, get_num k_duration p = Some d -> (1 # 10) <= d) /\
  (forall t, get_num k_startTime p = Some t -> 0 <= t).

(* ================================================================== *)
(** ** Identifiers *)

(** Modelled from the spec: [uid] of [src/utils/uid.ts], whose source is
    not part of the tree.  The spec only asks that it yields "a fresh
    identity"; the generator is kept abstract as the sequence of the
    strings its successive calls return, and the code that draws
    identifiers carries the number of calls made so far. *)
Definition UidGen := nat -> string.

(** Modelled from the spec: what "a fresh identity" asks of the [n] calls
    of [uid] numbered [calls], [calls + 1], ...: the identifiers they
    return differ from each other and from the identifiers [used] by the
    elements that exist when they are drawn. *)
Definition fresh_calls (gen : UidGen) (calls n : nat) (used : list string)
  : Prop :=
  List.NoDup (List.map gen (seq calls n)) /\
  forall i, (i < n)%nat -> ~ In (gen (calls + i)%nat) used.

(* ================================================================== *)
(** ** The timeline panel ([src/components/timeline/TimelinePanel.tsx]) *)

Inductive DragMode := move | trim_left | trim_right | slip.

Inductive TimelineTool :=
  | tool_select | tool_blade | tool_ripple | tool_roll | tool_slide | tool_slip.

Module DragStart.
Record t := mk
  { mouseX : Q;
    startTime : Q;
    duration : Q;
    trimIn : Q }.
End DragStart.

(** Everything the handlers of the panel read and write: the element store,
    the playback clock, the timeline settings, the drag context, and the
    number of identifiers drawn so far. *)
Module Panel.
Record t := mk
  { store : Store.t;
    currentTime : Q;
    timelineZoom : Q;
    snapEnabled : bool;
    timelineTool : TimelineTool;
    dragMode : option DragMode;
    dragId : option string;
    dragStartRef : DragStart.t;
    uidCalls : nat }.

Definition with_store (s : Store.t) (p : t) : t :=
  {| store := s; currentTime := currentTime p;
     timelineZoom := timelineZoom p; snapEnabled := snapEnabled p;
     timelineTool := timelineTool p; dragMode := dragMode p;
     dragId := dragId p; dragStartRef := dragStartRef p;
     uidCalls := uidCalls p |}.

Definition with_drag (m : option DragMode) (i : option string)
    (r : DragStart.t) (p : t) : t :=
  {| store := store p; currentTime := currentTime p;
     timelineZoom := timelineZoom p; snapEnabled := snapEnabled p;
     timelineTool := timelineTool p; dragMode := m;
     dragId := i; dragStartRef := r;
     uidCalls := uidCalls p |}.

Definition tick_uid (p : t) : t :=
  {| store := store p; currentTime := currentTime p;
     timelineZoom := timelineZoom p; snapEnabled := snapEnabled p;
     timelineTool := timelineTool p; dragMode := dragMode p;
     dragId := dragId p; dragStartRef := dragStartRef p;
     uidCalls := S (uidCalls p) |}.
End Panel.

Definition pxToTime (timelineZoom px : Q) : Q := px / timelineZoom.
Definition timeToPx (timelineZoom t : Q) : Q := t * timelineZoom.

(** [el.id === ignoreId], where [ignoreId] may be undefined. *)
Definition is_ignored (el : Element) (ignoreId : option string) : bool :=
  match ignoreId with
  | Some i => str_eqb (El.id el) i
  | None => false
  end.

(** One test of [snapTime]:
    [if (Math.abs(t - c) < bestDist) { best = c; bestDist = Math.abs(t - c) }]
    on the pair [(best, bestDist)]. *)
Definition snap_try (t c : Q) (acc : Q * Q) : Q * Q :=
  if Math.ltb (Math.abs (t - c)) (snd acc)
  then (c, Math.abs (t - c))
  else acc.

Definition snapTime (p : Panel.t) (t : Q) (ignoreId : option string) : Q :=
  if negb (Panel.snapEnabled p) then t
  else
    let SNAP_THRESHOLD := pxToTime (Panel.timelineZoom p) 8 in
    let acc := (t, SNAP_THRESHOLD) in
    (* Snap to playhead *)
    let acc := snap_try t (Panel.currentTime p) acc in
    (* Snap to clip edges *)
    let acc :=
      fold_left
        (fun acc el =>
           if is_ignored el ignoreId then acc
           else
             let start := El.startTime el in
             let end_ := El.startTime el + El.duration el in
             snap_try t end_ (snap_try t start acc))
        (Store.elements (Panel.store p)) acc in
    (* Snap to ruler marks (whole seconds) *)
    let nearestSecond := Math.round t in
    if Math.ltb (Math.abs (t - nearestSecond)) (snd acc)
    then nearestSecond
    else fst acc.

(** [el.type === 'video' || el.type === 'audio'] *)
Definition is_media (ty : ElementType) : bool :=
  match ty with video | audio => true | _ => false end.

(** [elements.find((e) => e.id === id)] *)
Definition find_by_id (id : string) (els : list Element) : option Element :=
  List.find (fun e => str_eqb (El.id e) id) els.

Section WithUid.
Variable gen : UidGen.

(** The body shared by [bladeClip] and [splitAtPlayhead]: cut [el] at the
    composition time [at_]. *)
Definition split_element (el : Element) (at_ : Q) (p : Panel.t) : Panel.t :=
  if Math.leb at_ (El.startTime el)
     || Math.geb at_ (El.startTime el + El.duration el)
  then p
  else
    let splitPoint := at_ - El.startTime el in
    let s1 :=
      Store.updateElement (El.id el) [PNum k_duration splitPoint]
        (Panel.store p) in
    let secondHalf :=
      spread el [PStr k_id (gen (Panel.uidCalls p));
                 PStr k_name (El.name el ++ " (2)");
                 PNum k_startTime at_;
                 PNum k_duration (El.duration el - splitPoint)] in
    let secondHalf :=
      if is_media (El.type secondHalf)
      then spread secondHalf
             [PNum k_trimIn (or_zero (El.trimIn el) + splitPoint)]
      else secondHalf in
    Panel.with_store (Store.addElement secondHalf s1) (Panel.tick_uid p).

(** Blade tool: cut clip at mouse position. *)
Definition bladeClip (el : Element) (mouseTime : Q) (p : Panel.t) : Panel.t :=
  split_element el mouseTime p.

(** Split selected clips at playhead.  [elements] and [currentTime] are
    the values the component rendered with. *)
Definition splitAtPlayhead (p : Panel.t) : Panel.t :=
  let elements := Store.elements (Panel.store p) in
  let currentTime := Panel.currentTime p in
  fold_left
    (fun acc id =>
       match find_by_id id elements with
       | None => acc
       | Some el => split_element el currentTime acc
       end)
    (Store.selectedIds (Panel.store p)) p.

(** [onClipMouseDown]; [x] is the pointer position on the timeline in
    pixels, scroll included, and [clientX] its position in the window. *)
Definition onClipMouseDown (clientX x : Q) (el : Element) (mode : DragMode)
    (p : Panel.t) : Panel.t :=
  match Panel.timelineTool p with
  | tool_blade =>
      bladeClip el (pxToTime (Panel.timelineZoom p) x) p
  | _ =>
      let s := Panel.store p in
      let s' := {| Store.elements := Store.elements s;
                   Store.selectedIds := [El.id el] |} in
      Panel.with_drag (Some mode) (Some (El.id el))
        {| DragStart.mouseX := clientX;
           DragStart.startTime := El.startTime el;
           DragStart.duration := El.duration el;
           DragStart.trimIn := or_zero (El.trimIn el) |}
        (Panel.with_store s' p)
  end.

End WithUid.

(** The drag part of [onTimelineMouseMove]; the blade preview it also
    updates is display state and is left out. *)
Definition onTimelineMouseMove (clientX : Q) (p : Panel.t) : Panel.t :=
  match Panel.dragMode p, Panel.dragId p with
  | Some dragMode, Some dragId =>
      match find_by_id dragId (Store.elements (Panel.store p)) with
      | None => p
      | Some el =>
          let ref := Panel.dragStartRef p in
          let deltaX := clientX - DragStart.mouseX ref in
          let deltaTime := pxToTime (Panel.timelineZoom p) deltaX in
          let upd patch q :=
            Panel.with_store
              (Store.updateElement dragId patch (Panel.store q)) q in
          match dragMode with
          | move =>
              let newStart := Math.max 0 (DragStart.startTime ref + deltaTime) in
              let newStart := snapTime p newStart (Some dragId) in
              let newEnd := snapTime p (newStart + El.duration el) (Some dragId) in
              let newStart :=
                if negb (Qeq_bool newEnd (newStart + El.duration el))
                then newEnd - El.duration el
                else newStart in
              upd [PNum k_startTime (Math.max 0 newStart)] p
          | trim_left =>
              let rawStart := DragStart.startTime ref + deltaTime in
              let minStart := 0 in
              let maxStart :=
                DragStart.startTime ref + DragStart.duration ref - (1 # 10) in
              let newStart := clamp rawStart minStart maxStart in
              let newStart := snapTime p newStart (Some dragId) in
              let newStart := clamp newStart minStart maxStart in
              let newDuration :=
                DragStart.duration ref - (newStart - DragStart.startTime ref) in
              let p1 :=
                upd [PNum k_startTime newStart;
                     PNum k_duration (Math.max (1 # 10) newDuration)] p in
              if is_media (El.type el)
              then
                let trimDelta := newStart - DragStart.startTime ref in
                upd [PNum k_trimIn
                       (Math.max 0 (DragStart.trimIn ref + trimDelta))] p1
              else p1
          | trim_right =>
              let rawDuration := DragStart.duration ref + deltaTime in
              let newDuration := Math.max (1 # 10) rawDuration in
              let newEnd :=
                snapTime p (El.startTime el + newDuration) (Some dragId) in
              let newDuration := newEnd - El.startTime el in
              upd [PNum k_duration (Math.max (1 # 10) newDuration)] p
          | slip =>
              if is_media (El.type el)
              then
                let newTrimIn :=
                  Math.max 0 (DragStart.trimIn ref + deltaTime) in
                upd [PNum k_trimIn newTrimIn] p
              else p
          end
      end
  | _, _ => p
  end.

Definition onTimelineMouseUp (p : Panel.t) : Panel.t :=
  Panel.with_drag None None (Panel.dragStartRef p) p.

(** The alignment targets of [snapTime] in the order the spec lists them:
    the playhead, the start and end edge of every other element, and the
    nearest whole-second tick. *)
Definition snap_candidates (p : Panel.t) (t : Q) (ignoreId : option string)
  : list Q :=
  Panel.currentTime p
    :: flat_map
         (fun el =>
            if is_ignored el ignoreId then []
            else [El.startTime el; El.startTime el + El.duration el])
         (Store.elements (Panel.store p))
    ++ [Math.round t].

(** The scan [snapTime] performs, as a fold of its test over a list of
    targets. *)
Definition scan (t : Q) (cs : list Q) (acc : Q * Q) : Q * Q :=
  fold_left (fun acc c => snap_try t c acc) cs acc.

(* ================================================================== *)
(** ** Easing and animation ([src/utils/easing.ts], [src/utils/animation.ts]) *)

Definition applyEasing (t : Q) (ease : EasingType) : Q :=
  match ease with
  | ease_in => t * t
  | ease_out => t * (2 - t)
  | ease_in_out =>
      if Math.ltb t (1 # 2) then 2 * t * t else - (1) + (4 - 2 * t) * t
  | bounce =>
      let n := 121 # 16 in   (* 7.5625 *)
      let d := 11 # 4 in     (* 2.75 *)
      if Math.ltb t (1 / d) then n * t * t
      else if Math.ltb t (2 / d) then
        let t2 := t - (3 # 2) / d in n * t2 * t2 + (3 # 4)
      else if Math.ltb t ((5 # 2) / d) then
        let t2 := t - (9 # 4) / d in n * t2 * t2 + (15 # 16)
      else
        let t2 := t - (21 # 8) / d in n * t2 * t2 + (63 # 64)
  | linear => t
  end.

(** The values of the CSS [transform] property that the code writes. *)
Inductive Transform :=
  | tr_rotate (deg : Q)             (* rotate(<deg>deg) *)
  | tr_translateX (px : Q)          (* translateX(<px>px) *)
  | tr_translateY (px : Q)          (* translateY(<px>px) *)
  | tr_scale (k : Q)                (* scale(<k>) *)
  | tr_rotate_scale (deg k : Q)     (* rotate(<deg>deg) scale(<k>) *)
  | tr_glitch (t : Q)
      (* translate(<Math.sin(t * 50) * 3>px, <Math.cos(t * 40) * 2>px) *)
  | tr_none.                        (* none *)

Inductive ClipPath :=
  | inset_right (pct : Q)           (* inset(0 <pct>% 0 0) *)
  | inset_left (pct : Q).           (* inset(0 0 0 <pct>%) *)

Inductive CssFilter :=
  | css_blur (px : Q)               (* blur(<px>px) *)
  | css_filter (s : string).        (* the element's filter string *)

(** The properties an animation style may set. *)
Module Css.
Record t := mk
  { opacity : option Q;
    transform : option Transform;
    clipPath : option ClipPath;
    filter : option CssFilter }.

Definition empty : t :=
  {| opacity := None; transform := None; clipPath := None; filter := None |}.

(** [{ ...a, ...b }] *)
Definition merge (a b : t) : t :=
  {| opacity := over_opt (opacity a) (opacity b);
     transform := over_opt (transform a) (transform b);
     clipPath := over_opt (clipPath a) (clipPath b);
     filter := over_opt (filter a) (filter b) |}.

Definition fade (o : Q) : t :=
  {| opacity := Some o; transform := None; clipPath := None; filter := None |}.
Definition moved (o : Q) (tr : Transform) : t :=
  {| opacity := Some o; transform := Some tr; clipPath := None;
     filter := None |}.
Definition clipped (c : ClipPath) : t :=
  {| opacity := None; transform := None; clipPath := Some c; filter := None |}.
Definition blurred (o px : Q) : t :=
  {| opacity := Some o; transform := None; clipPath := None;
     filter := Some (css_blur px) |}.
End Css.

Definition getAnimTransform (anim : AnimationType) (progress : Q)
    (easing : EasingType) : Css.t :=
  let t := applyEasing (clamp progress 0 1) easing in
  match anim with
  | fadeIn => Css.fade t
  | fadeOut => Css.fade (1 - t)
  | slideLeft => Css.moved t (tr_translateX ((1 - t) * 80))
  | slideRight => Css.moved t (tr_translateX ((t - 1) * 80))
  | slideUp => Css.moved t (tr_translateY ((1 - t) * 60))
  | scaleUp => Css.moved t (tr_scale ((3 # 10) + (7 # 10) * t))
  | scaleDown => Css.moved t (tr_scale ((3 # 2) - (1 # 2) * t))
  | rotateIn =>
      Css.moved t (tr_rotate_scale ((1 - t) * 180) ((1 # 2) + (1 # 2) * t))
  | bounceIn => Css.moved t (tr_scale ((3 # 10) + (7 # 10) * t))
  | typewriter => Css.clipped (inset_right ((1 - t) * 100))
  | blurIn => Css.blurred t ((1 - t) * 8)
  | glitch =>
      Css.moved (if Math.gtb t (1 # 10) then 1 else 0)
        (if Math.ltb t (8 # 10) then tr_glitch t else tr_none)
  | none => Css.empty
  end.

(** Exit animation: progress goes from 0 (start of exit) to 1 (fully
    exited). *)
Definition getExitAnimTransform (anim : AnimationType) (progress : Q)
    (easing : EasingType) : Css.t :=
  let t := applyEasing (clamp progress 0 1) easing in
  match anim with
  | fadeIn | fadeOut => Css.fade (1 - t)
  | slideLeft => Css.moved (1 - t) (tr_translateX (- t * 80))
  | slideRight => Css.moved (1 - t) (tr_translateX (t * 80))
  | slideUp => Css.moved (1 - t) (tr_translateY (- t * 60))
  | scaleUp => Css.moved (1 - t) (tr_scale (1 + t * (1 # 2)))
  | scaleDown => Css.moved (1 - t) (tr_scale (1 - t * (7 # 10)))
  | rotateIn =>
      Css.moved (1 - t) (tr_rotate_scale (t * 180) (1 - (1 # 2) * t))
  | bounceIn => Css.moved (1 - t) (tr_scale (1 - t * (7 # 10)))
  | typewriter => Css.clipped (inset_left (t * 100))
  | blurIn => Css.blurred (1 - t) (t * 8)
  | glitch =>
      Css.moved (if Math.ltb t (9 # 10) then 1 else 0)
        (if Math.gtb t (2 # 10) then tr_glitch t else tr_none)
  | none => Css.empty
  end.

(** [currentTime >= el.startTime && currentTime < el.startTime + el.duration] *)
Definition isInTime (el : Element) (currentTime : Q) : bool :=
  Math.geb currentTime (El.startTime el)
  && Math.ltb currentTime (El.startTime el + El.duration el).

(** A string used as a condition: the empty string and [undefined] are
    false. *)
Definition truthy (s : option string) : bool :=
  match s with
  | Some v => negb (str_eqb v "")
  | None => false
  end.

(* ================================================================== *)
(** ** Live preview ([src/components/canvas/CanvasViewport.tsx]) *)

Module Preview.

Inductive Cursor := cursor_default | cursor_move.

(** [baseStyle] *)
Record Style := mkStyle
  { left : Q;
    top : Q;
    width : Q;
    height : Q;
    transform : Transform;
    opacity : Q;
    borderRadius : Q;
    filter : option CssFilter;
    mixBlendMode : BlendMode;
    boxShadow : bool;          (* 0 8px 32px rgba(0,0,0,0.5), or none *)
    cursor : Cursor;
    outline : bool;            (* 2px solid accent, or none *)
    zIndex : nat;
    transition_none : bool;    (* none, or opacity 0.05s *)
    clipPath : option ClipPath }.

Inductive Justify := flex_start | flex_center | flex_end.

(** What the element is drawn as inside its box. *)
Inductive Body :=
  | text_box (content color : option string) (fontSize : option Q)
      (fontFamily fontWeight : option string) (textAlign : option TextAlign)
      (justifyContent : Justify) (clip : option ClipPath)
  | filled_box (background : option string)
      (border : option (option Q * option string))
  | image_box (src : option string)      (* url(src) center/cover *)
  | image_placeholder
  | video_box (src : option string) (muted : option bool)
      (objectFit : option ObjectFit)
  | video_placeholder.

Record Node := mkNode
  { key : string;
    style : Style;
    body : Body }.

(** The state [renderElement] closes over. *)
Record Ctx := mkCtx
  { currentTime : Q;
    isPlaying : bool;
    selectedIds : list string;
    dragging : option string }.  (* dragRef.current?.id *)

Definition animStyle (c : Ctx) (el : Element) : Css.t :=
  let inTime := isInTime el (currentTime c) in
  let entry :=
    match El.animation el with
    | none => Css.empty
    | anim =>
        if inTime then
          let elapsed := currentTime c - El.startTime el in
          let progress := clamp (elapsed / El.animDuration el) 0 1 in
          getAnimTransform anim progress (El.easing el)
        else Css.empty
    end in
  (* Exit animation *)
  match El.animationExit el with
  | none => entry
  | animExit =>
      if inTime then
        let elEnd := El.startTime el + El.duration el in
        let timeToEnd := elEnd - currentTime c in
        if Math.leb timeToEnd (El.animExitDuration el) then
          let exitProgress :=
            clamp (1 - timeToEnd / El.animExitDuration el) 0 1 in
          Css.merge entry
            (getExitAnimTransform animExit exitProgress (El.easing el))
        else entry
      else entry
  end.

Definition baseStyle (c : Ctx) (el : Element) (idx : nat) : Style :=
  let a := animStyle c el in
  {| left := El.x el;
     top := El.y el;
     width := El.width el;
     height := El.height el;
     transform := over (tr_rotate (El.rotation el)) (Css.transform a);
     opacity := over (El.opacity el) (Css.opacity a);
     borderRadius := El.borderRadius el;
     filter :=
       over_opt
         (if negb (str_eqb (El.filter el) "none")
          then Some (css_filter (El.filter el)) else None)
         (Css.filter a);
     mixBlendMode := El.blendMode el;
     boxShadow := El.shadow el;
     cursor := if El.locked el then cursor_default else cursor_move;
     outline := includes (selectedIds c) (El.id el);
     zIndex := idx;
     transition_none :=
       match dragging c with
       | Some d => str_eqb d (El.id el)
       | None => false
       end;
     clipPath := Css.clipPath a |}.

Definition renderElement (c : Ctx) (el : Element) (idx : nat) : option Node :=
  if negb (El.visible el) then None
  else if negb (isInTime el (currentTime c)) && isPlaying c then None
  else
    let node b := Some {| key := El.id el; style := baseStyle c el idx;
                          body := b |} in
    match El.type el with
    | text =>
        node (text_box (El.content el) (El.color el) (El.fontSize el)
                (El.fontFamily el) (El.fontWeight el) (El.textAlign el)
                (match El.textAlign el with
                 | Some align_center => flex_center
                 | Some align_right => flex_end
                 | _ => flex_start
                 end)
                (Css.clipPath (animStyle c el)))
    | shape | circle =>
        node (filled_box (El.fill el)
                (if negb (match El.stroke el with
                          | Some s => str_eqb s "none"
                          | None => false
                          end)
                 then Some (El.strokeWidth el, El.stroke el)
                 else None))
    | image =>
        node (if truthy (El.src el) then image_box (El.src el)
              else image_placeholder)
    | video =>
        node (if truthy (El.src el)
              then video_box (El.src el) (El.muted el) (El.objectFit el)
              else video_placeholder)
    | audio | subtitle => None
    end.


End Preview.

(* ================================================================== *)
(** ** Export rendering ([src/services/exportPipeline.ts]) *)

(** [s.split(sep)] for a one-character separator. *)
Fixpoint split_on (sep : ascii) (s : string) : list string :=
  match s with
  | EmptyString => [EmptyString]
  | String c r =>
      if Ascii.eqb c sep then EmptyString :: split_on sep r
      else
        match split_on sep r with
        | w :: ws => String c w :: ws
        | [] => [String c EmptyString]
        end
  end.

(** Reading a numeric property that the element's type declares.  Every
    well-typed element has it; a missing one reads as 0 here (numbers in
    this model have no NaN). *)
Definition num (x : option Q) : Q :=
  match x with Some v => v | None => 0 end.

(* ================================================================== *)
(** ** The subtitle overlay of the preview
    ([SubtitleOverlay], in [src/components/subtitles/LowerThirdOverlay.tsx]) *)

Module Overlay.

(** Where the block of a subtitle element is anchored. *)
Inductive Anchor :=
  | anchor_top                (* top: 5% *)
  | anchor_center             (* top: 50%, transform: translateY(-50%) *)
  | anchor_bottom.            (* bottom: 8% *)

(** The box of one cue. *)
Record CueBox := mkCueBox
  { cue_key : string;
    cue_text : string;
    background : option string;
    color : option string;
    fontSize : Q;
    fontFamily : option string }.

(** The block drawn for one subtitle element. *)
Record t := mk
  { key : string;
    anchor : Anchor;
    boxes : list CueBox }.

End Overlay.





Module Canvas.

(** A loaded [<img>]. *)
Record Image := mkImage { img_src : string }.

(** A loaded [<video>]: the only part of its state the export touches
    is [currentTime], which selects the frame [drawImage] paints. *)
Record Video := mkVideo { video_src : string; currentTime : Q }.

(** [`${weight} ${size}px ${family}`] *)
Record Font := mkFont
  { weight : option string;
    size : option Q;
    family : option string }.

(** The calls made on the 2D context. *)
Inductive Op :=
  | clearRect (x y w h : Q)
  | set_fillStyle (s : option string)
  | fillRect (x y w h : Q)
  | ctx_save
  | ctx_restore
  | translate (x y : Q)
  | rotate_deg (deg : Q)            (* rotate((deg * Math.PI) / 180) *)
  | set_globalAlpha (a : Q)
  | set_globalCompositeOperation (m : BlendMode)
  | set_font (f : Font)
  | set_textAlign (a : option TextAlign)
  | set_textBaseline_middle
  | fillText (s : string) (x y : Q)
  | beginPath
  | moveTo (x y : Q)
  | lineTo (x y : Q)
  | quadraticCurveTo (cpx cpy x y : Q)
  | closePath
  | fill
  | set_strokeStyle (s : option string)
  | set_lineWidth (w : Q)
  | strokeRect (x y w h : Q)
  | ellipse_full (x y rx ry : Q)    (* ellipse(x, y, rx, ry, 0, 0, 2 pi) *)
  | stroke
  | drawImage (img : Image) (x y w h : Q)
  | drawVideo (v : Video) (x y w h : Q)
  | set_shadowColor (s : string)
  | set_shadowBlur (b : Q)
  | set_shadowOffsetY (o : Q).

End Canvas.

Section ExportRender.
Import Canvas.

(** [ctx.measureText(s).width] under the current font. *)
Variable measureText : Font -> string -> Q.

Definition roundRect (x y w h r : Q) : list Op :=
  [ beginPath;
    moveTo (x + r) y;
    lineTo (x + w - r) y;
    quadraticCurveTo (x + w) y (x + w) (y + r);
    lineTo (x + w) (y + h - r);
    quadraticCurveTo (x + w) (y + h) (x + w - r) (y + h);
    lineTo (x + r) (y + h);
    quadraticCurveTo x (y + h) x (y + h - r);
    lineTo x (y + r);
    quadraticCurveTo x y (x + r) y;
    closePath ].

(** The word-wrapping loop: [(lines, currentLine)] after each word. *)
Definition wrap_word (font : Font) (width : Q) (acc : list string * string)
    (word : string) : list string * string :=
  let '(lines, currentLine) := acc in
  let testLine :=
    if negb (str_eqb currentLine "")
    then (currentLine ++ " " ++ word)%string else word in
  if Math.gtb (measureText font testLine) width
     && negb (str_eqb currentLine "")
  then (lines ++ [currentLine], word)
  else (lines, testLine).

Definition wrap_lines (font : Font) (width : Q) (content : string)
  : list string :=
  let '(lines, currentLine) :=
    fold_left (wrap_word font width) (split_on " " content) ([], ""%string) in
  if negb (str_eqb currentLine "") then lines ++ [currentLine] else lines.

(** The [content] of a text element is a string on every well-typed
    element; a missing one reads as the empty string. *)
Definition draw_text (el : Element) : list Op :=
  let font := {| weight := El.fontWeight el; size := El.fontSize el;
                 family := El.fontFamily el |} in
  let textX :=
    match El.textAlign el with
    | Some align_center => 0
    | Some align_right => El.width el / 2
    | _ => - El.width el / 2
    end in
  let lines :=
    wrap_lines font (El.width el)
      (match El.content el with Some c => c | None => ""%string end) in
  let lineHeight := num (El.fontSize el) * (12 # 10) in
  let startY :=
    - (inject_Z (Z.of_nat (length lines)) * lineHeight) / 2
    + lineHeight / 2 in
  [ set_fillStyle (El.color el);
    set_font font;
    set_textAlign (El.textAlign el);
    set_textBaseline_middle ]
  ++ List.map
       (fun il =>
          fillText (snd il) textX
            (startY + inject_Z (Z.of_nat (fst il)) * lineHeight))
       (combine (seq 0 (length lines)) lines).

Definition stroke_is_none (el : Element) : bool :=
  match El.stroke el with
  | Some s => str_eqb s "none"
  | None => false
  end.

Definition draw_shape (el : Element) (x y : Q) : list Op :=
  [ set_fillStyle (El.fill el) ]
  ++ (if Math.gtb (El.borderRadius el) 0
      then roundRect x y (El.width el) (El.height el) (El.borderRadius el)
           ++ [ fill ]
      else [ fillRect x y (El.width el) (El.height el) ])
  ++ (if negb (stroke_is_none el)
      then [ set_strokeStyle (El.stroke el);
             set_lineWidth (num (El.strokeWidth el));
             strokeRect x y (El.width el) (El.height el) ]
      else []).

Definition draw_circle (el : Element) : list Op :=
  [ set_fillStyle (El.fill el);
    beginPath;
    ellipse_full 0 0 (El.width el / 2) (El.height el / 2);
    fill ]
  ++ (if negb (stroke_is_none el)
      then [ set_strokeStyle (El.stroke el);
             set_lineWidth (num (El.strokeWidth el));
             stroke ]
      else []).

(** Subtitle burn-in: the calls made for one cue. *)
Definition draw_cue (el : Element) (currentTime width height : Q)
    (cue : Cue.t) : list Op :=
  let cueActive :=
    Math.geb currentTime (Cue.startTime cue)
    && Math.leb currentTime (Cue.endTime cue) in
  if negb cueActive then []
  else
    let subFontSize := num (El.fontSize el) in
    let font := {| weight := Some "600"%string; size := El.fontSize el;
                   family := El.fontFamily el |} in
    let textWidth := measureText font (Cue.text cue) in
    let padX := 20 in
    let padY := 10 in
    let textY :=
      match El.position el with
      | Some pos_top => height * (8 # 100)
      | Some pos_center => height / 2
      | _ => height * (9 # 10)
      end in
    [ ctx_restore;
      ctx_save;
      set_font font;
      set_textAlign (Some align_center);
      set_textBaseline_middle;
      set_fillStyle (El.backgroundColor el);
      fillRect (width / 2 - textWidth / 2 - padX)
        (textY - subFontSize / 2 - padY)
        (textWidth + padX * 2) (subFontSize + padY * 2);
      set_shadowColor "rgba(0,0,0,0.8)";
      set_shadowBlur 4;
      set_shadowOffsetY 2;
      set_fillStyle (El.color el);
      fillText (Cue.text cue) (width / 2) textY;
      set_shadowBlur 0;
      set_shadowOffsetY 0;
      ctx_restore;
      ctx_save;
      translate (El.x el + El.width el / 2) (El.y el + El.height el / 2);
      rotate_deg (El.rotation el);
      set_globalAlpha (El.opacity el) ].

(** The body of the loop of [renderFrameWithAssets] for one element. *)
Definition draw_element (currentTime width height : Q)
    (images : gmap string Image) (videos : gmap string Video)
    (el : Element) : list Op :=
  if negb (El.visible el) then []
  else if negb (isInTime el currentTime) then []
  else
    let x := - El.width el / 2 in
    let y := - El.height el / 2 in
    [ ctx_save;
      translate (El.x el + El.width el / 2) (El.y el + El.height el / 2);
      rotate_deg (El.rotation el);
      set_globalAlpha (El.opacity el) ]
    ++ (match El.blendMode el with
        | normal => []
        | m => [ set_globalCompositeOperation m ]
        end)
    ++ (match El.type el with
        | text => draw_text el
        | shape => draw_shape el x y
        | circle => draw_circle el
        | image =>
            match images !! El.id el with
            | Some img => [ drawImage img x y (El.width el) (El.height el) ]
            | None => []
            end
        | video =>
            match videos !! El.id el with
            | Some v => [ drawVideo v x y (El.width el) (El.height el) ]
            | None => []
            end
        | subtitle =>
            flat_map (draw_cue el currentTime width height)
              (match El.cues el with Some cs => cs | None => [] end)
        | audio => []
        end)
    ++ [ ctx_restore ].

(** Render frame with pre-loaded assets (images + video frames). *)
Definition renderFrameWithAssets (elements : list Element)
    (currentTime width height : Q)
    (images : gmap string Image) (videos : gmap string Video) : list Op :=
  [ clearRect 0 0 width height;
    set_fillStyle (Some "#111827"%string);
    fillRect 0 0 width height ]
  ++ flat_map (draw_element currentTime width height images videos) elements.

End ExportRender.

(* ================================================================== *)
(** ** The export loop ([src/services/exportPipeline.ts]) *)

(** [String(i)] for a non-negative integer. *)
Definition nat_to_string (n : nat) : string :=
  DecimalString.NilEmpty.string_of_uint (Nat.to_uint n).

(** [s.padStart(n, '0')] *)
Definition padStart0 (n : nat) (s : string) : string :=
  (String.concat "" (repeat "0"%string (n - String.length s)) ++ s)%string.

Module ExportPipeline.
Import Canvas.

Inductive Format := mp4 | webm.

Record Settings := mkSettings
  { width : Q;
    height : Q;
    fps : Q;
    videoBitrate : string;
    audioBitrate : string;
    format : Format }.

Definition DEFAULT_EXPORT_SETTINGS : Settings :=
  {| width := 1920; height := 1080; fps := 30; videoBitrate := "5M";
     audioBitrate := "192k"; format := mp4 |}.

(** A captured frame: the pixels of the canvas are determined by the
    calls that painted it, so the frame is identified with them. *)
Definition Frame := list Op.

(** The files of the FFmpeg virtual file system.  The FFmpeg instance is
    a module-level singleton, so the file system outlives a run. *)
Inductive File :=
  | raw_frame (f : Frame)
  | encoded (fmt : Format) (frames : list Frame).

(** How a run of [exportProject] ends. *)
Inductive Outcome :=
  | returned (blob : File)
  | cancelled                 (* throw new Error('Export cancelled') *)
  | failed.                   (* an error thrown by the encoder *)

(** Seek a video element to a specific time and wait for it to be ready.
    The promise resolves at once when the video is within 0.02 s of the
    target, and otherwise on the [seeked] event, after which the video is
    taken to be at the requested time. *)
Definition seekVideo (video : Video) (time : Q) : Video :=
  if Math.ltb (Math.abs (currentTime video - time)) (2 # 100) then video
  else {| video_src := video_src video; currentTime := time |}.

Definition sourceTime (el : Element) (currentTime : Q) : Q :=
  num (El.trimIn el)
  + (currentTime - El.startTime el) * or_one (El.playbackRate el).

(** Seek all video elements to the correct time. *)
Definition seek_element (currentTime : Q) (videos : gmap string Video)
    (el : Element) : gmap string Video :=
  match El.type el with
  | video =>
      if El.visible el then
        match videos !! El.id el with
        | Some v =>
            if isInTime el currentTime
            then <[El.id el := seekVideo v (sourceTime el currentTime)]> videos
            else videos
        | None => videos
        end
      else videos
  | _ => videos
  end.

Definition seek_all (elements : list Element) (currentTime : Q)
    (videos : gmap string Video) : gmap string Video :=
  fold_left (seek_element currentTime) elements videos.

Definition frame_file (i : nat) : string :=
  ("frame_" ++ padStart0 6 (nat_to_string i) ++ ".rgba")%string.

Definition outputFile (s : Settings) : string :=
  match format s with mp4 => "output.mp4" | webm => "output.webm" end%string.

Section Run.
Variable measureText : Font -> string -> Q.
Variable settings : Settings.
Variable elements : list Element.
Variable duration : Q.
Variable images : gmap string Image.

(** [aborted n] is the value of [abortSignal.aborted] the [n]-th time
    the code reads it (counting from 0). *)
Variable aborted : nat -> bool.

(** The external encoder: [None] when [ffmpeg.exec] fails. *)
Variable encoder : Settings -> list Frame -> option File.

Definition totalFrames : nat :=
  Z.to_nat (Math.ceil (duration * fps settings)).

Definition frame_time (frame : nat) : Q :=
  inject_Z (Z.of_nat frame) / fps settings.

(** Phase 3: the rendering loop, [todo] iterations from index [frame].
    [reads] counts the reads of the abort signal so far. *)
Fixpoint render_frames (todo frame reads : nat)
    (videos : gmap string Video) (frameData : list Frame)
  : option (list Frame * gmap string Video * nat) :=
  match todo with
  | O => Some (frameData, videos, reads)
  | S todo' =>
      if aborted reads then None
      else
        let currentTime := frame_time frame in
        let videos := seek_all elements currentTime videos in
        let imageData :=
          renderFrameWithAssets measureText elements currentTime
            (width settings) (height settings) images videos in
        render_frames todo' (S frame) (S reads) videos
          (frameData ++ [imageData])
  end.

(** Phase 4: write each frame as a raw RGBA file. *)
Fixpoint write_frames (frames : list Frame) (i reads : nat)
    (fs : gmap string File) : bool * gmap string File * nat :=
  match frames with
  | [] => (true, fs, reads)
  | f :: rest =>
      if aborted reads then (false, fs, reads)
      else write_frames rest (S i) (S reads)
             (<[frame_file i := raw_frame f]> fs)
  end.

(** Cleanup FFmpeg virtual FS. *)
Definition cleanup (count : nat) (fs : gmap string File)
  : gmap string File :=
  delete (outputFile settings)
    (fold_left (fun fs i => delete (frame_file i) fs) (seq 0 count) fs).

(** [exportProject], from the rendering loop on; the result is the
    outcome together with the file system the run leaves behind. *)
Definition exportProject (videos : gmap string Video)
    (fs : gmap string File) : Outcome * gmap string File :=
  match render_frames totalFrames 0 0 videos [] with
  | None => (cancelled, fs)
  | Some (frameData, _, reads) =>
      match write_frames frameData 0 reads fs with
      | (false, fs, _) => (cancelled, fs)
      | (true, fs, _) =>
          match encoder settings frameData with
          | None => (failed, fs)
          | Some out =>
              let fs := <[outputFile settings := out]> fs in
              (returned out, cleanup (length frameData) fs)
          end
      end
  end.

End Run.

End ExportPipeline.

(** The video sources as they stand when frame [f] is drawn: after the
    seeks of frames [0..f]. *)
Fixpoint videos_at (settings : ExportPipeline.Settings)
    (elements : list Element) (videos : gmap string Canvas.Video) (f : nat)
  : gmap string Canvas.Video :=
  ExportPipeline.seek_all elements (ExportPipeline.frame_time settings f)
    (match f with
     | O => videos
     | S f' => videos_at settings elements videos f'
     end).

(** The video sources as they stand when the seeks of frame [f] begin. *)
Definition videos_before (settings : ExportPipeline.Settings)
    (elements : list Element) (videos : gmap string Canvas.Video) (f : nat)
  : gmap string Canvas.Video :=
  match f with
  | O => videos
  | S f' => videos_at settings elements videos f'
  end.

(* ================================================================== *)
(** ** Time formatting ([src/utils/formatTime.ts]) *)

(** [n.toString()] for an integer. *)
Definition Z_to_string (n : Z) : string :=
  match n with
  | Z.neg p => ("-" ++ nat_to_string (Pos.to_nat p))%string
  | _ => nat_to_string (Z.to_nat n)
  end.

(** [a % b]: the remainder takes the sign of the dividend. *)
Definition js_rem (a b : Q) : Q :=
  let q := a / b in
  let trunc := if Math.ltb q 0 then Qceiling q else Qfloor q in
  a - b * inject_Z trunc.

Definition formatTime (seconds : Q) : string :=
  let m := Math.floor (seconds / 60) in
  let s := Math.floor (js_rem seconds 60) in
  let ms := Math.floor (js_rem seconds 1 * 100) in
  (padStart0 2 (Z_to_string m) ++ ":" ++ padStart0 2 (Z_to_string s) ++ "."
   ++ padStart0 2 (Z_to_string ms))%string.

(* ================================================================== *)
(** ** Auto-cut ([src/components/autocut/AutoCutPanel.tsx]) *)

Inductive RegionType := speech | silence.

Module Region.
Record t := mk
  { start : Q;
    end_ : Q;
    type : RegionType }.
End Region.

Module AutoCut.

(** The state [handleApply] reads and writes. *)
Record t := mk
  { store : Store.t;
    regions : option (list Region.t);
    applied : bool;
    uidCalls : nat }.

(** Find selected video/audio element. *)
Definition selectedEl (s : Store.t) : option Element :=
  List.find
    (fun e => includes (Store.selectedIds s) (El.id e) && is_media (El.type e))
    (Store.elements s).

Definition is_speech (r : Region.t) : bool :=
  match Region.type r with speech => true | silence => false end.

Section WithUid.
Variable gen : UidGen.

(** The element created for one speech segment. *)
Definition region_clip (origEl : Element) (timeOffset : Q) (newId : string)
    (region : Region.t) : Element :=
  let regionDuration := Region.end_ region - Region.start region in
  spread origEl
    [PStr k_id newId;
     PStr k_name
       (El.name origEl ++ " [" ++ formatTime (Region.start region) ++ "]");
     PNum k_startTime timeOffset;
     PNum k_duration regionDuration;
     PNum k_trimIn (or_zero (El.trimIn origEl) + Region.start region);
     PNum k_trimOut (or_zero (El.trimIn origEl) + Region.end_ region)].

(** One iteration of the loop over the speech regions, on
    [(store, timeOffset, uidCalls)]. *)
Definition apply_region (origEl : Element) (acc : Store.t * Q * nat)
    (region : Region.t) : Store.t * Q * nat :=
  let '(s, timeOffset, calls) := acc in
  let regionDuration := Region.end_ region - Region.start region in
  let newEl := region_clip origEl timeOffset (gen calls) region in
  (Store.addElement newEl s, timeOffset + regionDuration, S calls).

Definition handleApply (a : t) : t :=
  match regions a, selectedEl (store a) with
  | Some rs, Some selected =>
      (* Get speech regions only *)
      let speechRegions := List.filter is_speech rs in
      match speechRegions with
      | [] => a
      | _ =>
          let origEl := selected in
          (* Delete original *)
          let s := Store.deleteElements [El.id origEl] (store a) in
          (* Create a new element for each speech segment *)
          let '(s, _, calls) :=
            fold_left (apply_region origEl) speechRegions
              (s, El.startTime origEl, uidCalls a) in
          {| store := s; regions := regions a; applied := true;
             uidCalls := calls |}
      end
  | _, _ => a
  end.

End WithUid.

End AutoCut.

(** The clips that region materialization lays out for the regions [rs],
    the first of them at [timeOffset] with the [calls]-th identifier. *)
Fixpoint region_clips (gen : UidGen) (origEl : Element) (timeOffset : Q)
    (calls : nat) (rs : list Region.t) : list Element :=
  match rs with
  | [] => []
  | r :: rs' =>
      AutoCut.region_clip origEl timeOffset (gen calls) r
      :: region_clips gen origEl
           (timeOffset + (Region.end_ r - Region.start r)) (S calls) rs'
  end.

(* ================================================================== *)
(** ** Strings and regular expressions

    The string operations and the fragment of regular expressions that the
    subtitle parsers use.  A character of the model is a code unit below
    256 (the Latin-1 range of a JavaScript string); text that holds other
    code units is outside the model. *)

Definition is_digit (c : ascii) : bool :=
  let n := nat_of_ascii c in (48 <=? n)%nat && (n <=? 57)%nat.

(** White space, as [\s] matches it and as [trim] removes it: of the
    code units below 256 these are tab, line feed, vertical tab, form
    feed, carriage return (9 to 13), the space (32) and the no-break
    space U+00A0 (160).  The other white space of JavaScript (U+1680,
    U+2000 to U+200A, U+2028, U+2029, U+202F, U+205F, U+3000, U+FEFF)
    has no character in the model. *)
Definition is_space (c : ascii) : bool :=
  let n := nat_of_ascii c in
  ((9 <=? n)%nat && (n <=? 13)%nat) || (n =? 32)%nat || (n =? 160)%nat.

Definition lf : ascii := ascii_of_nat 10.
Definition newline : string := String lf EmptyString.

Fixpoint trimStart (s : string) : string :=
  match s with
  | String c s' => if is_space c then trimStart s' else s
  | EmptyString => EmptyString
  end.

Fixpoint trimEnd (s : string) : string :=
  match s with
  | String c s' =>
      match trimEnd s' with
      | EmptyString => if is_space c then EmptyString else String c EmptyString
      | t => String c t
      end
  | EmptyString => EmptyString
  end.

Definition trim (s : string) : string := trimEnd (trimStart s).

(** [s.startsWith(p)] *)
Definition startsWith (p s : string) : bool := String.prefix p s.

(** [s.includes(sub)] *)
Fixpoint str_includes (sub s : string) : bool :=
  String.prefix sub s
  || match s with
     | String _ s' => str_includes sub s'
     | EmptyString => false
     end.

(** The part of [s] after the first occurrence of [sub]:
    [s.slice(s.indexOf(sub) + sub.length)], or [None] when [indexOf]
    is negative. *)
Fixpoint after_first (sub s : string) : option string :=
  if String.prefix sub s
  then Some (String.substring (String.length sub)
               (String.length s - String.length sub) s)
  else match s with
       | String _ s' => after_first sub s'
       | EmptyString => None
       end.

(** [parseInt(s)] on a string of decimal digits. *)
Definition parseInt (s : string) : Q :=
  inject_Z
    (Z.of_nat
       (fold_left (fun acc c => (10 * acc + (nat_of_ascii c - 48))%nat)
          (list_ascii_of_string s) 0%nat)).

Module Re.

Inductive t :=
  | Chr (p : ascii -> bool)      (* one character of a class *)
  | Seq (r1 r2 : t)
  | StarC (p : ascii -> bool)    (* [c*] for a class, greedy *)
  | Opt (r : t)                  (* [(?:r)?], greedy *)
  | Grp (r : t)                  (* a capturing group *)
  | Eps.

Definition lit (c : ascii) : t := Chr (Ascii.eqb c).

Fixpoint seqs (rs : list t) : t :=
  match rs with
  | [] => Eps
  | [r] => r
  | r :: rs' => Seq r (seqs rs')
  end.

(** The number of capturing groups of an expression. *)
Fixpoint groups (r : t) : nat :=
  match r with
  | Seq r1 r2 => groups r1 + groups r2
  | Opt r' => groups r'
  | Grp r' => S (groups r')
  | _ => 0
  end.

Definition Captures := list (option string).

Section Match.
Context {R : Type}.

(** Greedy repetition of a class: take as many characters as possible,
    and give them back one at a time while the rest fails. *)
Fixpoint star (p : ascii -> bool) (s : string)
    (k : string -> option R) : option R :=
  match s with
  | String c s' =>
      if p c then
        match star p s' k with
        | Some x => Some x
        | None => k s
        end
      else k s
  | EmptyString => k s
  end.

(** Backtracking match of [r] at the start of [s]; [k] continues with
    the rest of the string and the captures so far. *)
Fixpoint run (r : t) (s : string) (caps : Captures)
    (k : string -> Captures -> option R) : option R :=
  match r with
  | Chr p =>
      match s with
      | String c s' => if p c then k s' caps else None
      | EmptyString => None
      end
  | Seq r1 r2 => run r1 s caps (fun s' caps' => run r2 s' caps' k)
  | StarC p => star p s (fun s' => k s' caps)
  | Opt r' =>
      match run r' s caps k with
      | Some x => Some x
      | None => k s (caps ++ repeat None (groups r'))
      end
  | Grp r' =>
      run r' s caps
        (fun s' caps' =>
           k s' (caps' ++ [Some (String.substring 0
                                   (String.length s - String.length s') s)]))
  | Eps => k s caps
  end.
End Match.

(** A match at the start of [s]: its length and its captures. *)
Definition exec_at (r : t) (s : string) : option (nat * Captures) :=
  run r s []
    (fun s' caps => Some ((String.length s - String.length s')%nat, caps)).

(** [s.match(r)]: the captures of the leftmost match. *)
Fixpoint search (r : t) (s : string) : option Captures :=
  match exec_at r s with
  | Some (_, caps) => Some caps
  | None =>
      match s with
      | String _ s' => search r s'
      | EmptyString => None
      end
  end.

Fixpoint rev_string (acc s : string) : string :=
  match s with
  | String c s' => rev_string (String c acc) s'
  | EmptyString => acc
  end.

(** [s.split(r)]: [skip] characters of a separator are still to be
    passed over and [cur] is the piece being read, backwards. *)
Fixpoint split_go (r : t) (s : string) (skip : nat) (cur : string)
  : list string :=
  match s with
  | EmptyString => [rev_string "" cur]
  | String c s' =>
      match skip with
      | S n => split_go r s' n cur
      | O =>
          match exec_at r s with
          | Some (S n, _) => rev_string "" cur :: split_go r s' n ""
          | _ => split_go r s' 0 (String c cur)
          end
      end
  end.

Definition split (r : t) (s : string) : list string := split_go r s 0 "".

(** [s.replace(r, '')] for a global expression [r]: [skip] characters of
    a match are still to be dropped. *)
Fixpoint remove_go (r : t) (s : string) (skip : nat) : string :=
  match s with
  | EmptyString => EmptyString
  | String c s' =>
      match skip with
      | S n => remove_go r s' n
      | O =>
          match exec_at r s with
          | Some (S n, _) => remove_go r s' n
          | _ => String c (remove_go r s' 0)
          end
      end
  end.

Definition remove_all (r : t) (s : string) : string := remove_go r s 0.

End Re.

(* ================================================================== *)
(** ** Subtitle interchange ([parseSRT], [parseVTT], [parseSubtitles]) *)

Module Subtitles.

Definition digit : Re.t := Re.Chr is_digit.
Definition d2 : Re.t := Re.Grp (Re.Seq digit digit).
Definition d3 : Re.t := Re.Grp (Re.Seq digit (Re.Seq digit digit)).
Definition arrow : list Re.t :=
  [Re.StarC is_space; Re.lit "-"; Re.lit "-"; Re.lit ">";
   Re.StarC is_space].

Definition comma_or_dot (c : ascii) : bool :=
  Ascii.eqb c "," || Ascii.eqb c ".".

(** [(\d{2}):(\d{2}):(\d{2})[,.](\d{3})] *)
Definition srt_stamp : list Re.t :=
  [d2; Re.lit ":"; d2; Re.lit ":"; d2; Re.Chr comma_or_dot; d3].

(** [/(\d{2}):(\d{2}):(\d{2})[,.](\d{3})\s*-->\s*(\d{2}):(\d{2}):(\d{2})[,.](\d{3})/] *)
Definition SRT_TIME : Re.t := Re.seqs (srt_stamp ++ arrow ++ srt_stamp).

(** [(?:(\d{2}):)?(\d{2}):(\d{2})[.](\d{3})] *)
Definition vtt_stamp : list Re.t :=
  [Re.Opt (Re.Seq d2 (Re.lit ":")); d2; Re.lit ":"; d2; Re.lit "."; d3].

(** [/(?:(\d{2}):)?(\d{2}):(\d{2})[.](\d{3})\s*-->\s*(?:(\d{2}):)?(\d{2}):(\d{2})[.](\d{3})/] *)
Definition VTT_TIME : Re.t := Re.seqs (vtt_stamp ++ arrow ++ vtt_stamp).

Definition not_gt (c : ascii) : bool := negb (Ascii.eqb c ">").

(** [/<[^>]+>/g] *)
Definition TAG : Re.t :=
  Re.seqs [Re.lit "<"; Re.Chr not_gt; Re.StarC not_gt; Re.lit ">"].

(** [/\n\s*\n/] *)
Definition BLANK : Re.t :=
  Re.seqs [Re.lit lf; Re.StarC is_space; Re.lit lf].

(** strip HTML tags *)
Definition stripTags (s : string) : string := Re.remove_all TAG s.

(** [match[i]], for [i >= 1]. *)
Definition group (caps : Re.Captures) (i : nat) : option string :=
  match nth_error caps (i - 1) with
  | Some c => c
  | None => None
  end.

(** [parseInt(match[i])] *)
Definition int_group (caps : Re.Captures) (i : nat) : Q :=
  match group caps i with
  | Some s => parseInt s
  | None => 0
  end.

(** [parseInt(match[i] || '0')] *)
Definition int_group_or_0 (caps : Re.Captures) (i : nat) : Q :=
  match group caps i with
  | Some s => if str_eqb s "" then 0 else parseInt s
  | None => 0
  end.

(** [lines.slice(n).join('\n')] *)
Definition join_from (n : nat) (lines : list string) : string :=
  String.concat newline (skipn n lines).

Section WithUid.
Variable gen : UidGen.

(** The body of the loop of [parseSRT] on the lines of one block;
    [newId] is the identifier drawn if a cue is pushed. *)
Definition srt_block (newId : string) (lines : list string)
  : option Cue.t :=
  if (length lines <? 3)%nat then None
  else
    (* Line 1: index (skip); Line 2: timestamps *)
    match nth_error lines 1 with
    | None => None
    | Some timeLine =>
        match Re.search SRT_TIME timeLine with
        | None => None
        | Some m =>
            let startTime :=
              int_group m 1 * 3600 + int_group m 2 * 60 + int_group m 3
              + int_group m 4 / 1000 in
            let endTime :=
              int_group m 5 * 3600 + int_group m 6 * 60 + int_group m 7
              + int_group m 8 / 1000 in
            (* Lines 3+: text (strip HTML tags) *)
            let cueText := stripTags (join_from 2 lines) in
            Some {| Cue.id := newId; Cue.startTime := startTime;
                    Cue.endTime := endTime; Cue.text := cueText |}
        end
    end.

(** Find the timestamp line (may have optional cue ID before it). *)
Fixpoint find_time_line (lines : list string) (i : nat) : nat :=
  match lines with
  | [] => 0
  | l :: rest =>
      if str_includes "-->" l then i else find_time_line rest (S i)
  end.

(** The body of the loop of [parseVTT] on the lines of one block. *)
Definition vtt_block (newId : string) (lines : list string)
  : option Cue.t :=
  let timeLineIdx := find_time_line lines 0 in
  match nth_error lines timeLineIdx with
  | None => None
  | Some timeLine =>
      if negb (str_includes "-->" timeLine) then None
      else
        (* VTT timestamps can be HH:MM:SS.mmm or MM:SS.mmm *)
        match Re.search VTT_TIME timeLine with
        | None => None
        | Some m =>
            let startTime :=
              int_group_or_0 m 1 * 3600 + int_group m 2 * 60
              + int_group m 3 + int_group m 4 / 1000 in
            let endTime :=
              int_group_or_0 m 5 * 3600 + int_group m 6 * 60
              + int_group m 7 + int_group m 8 / 1000 in
            let cueText :=
              stripTags (join_from (timeLineIdx + 1) lines) in
            Some {| Cue.id := newId; Cue.startTime := startTime;
                    Cue.endTime := endTime; Cue.text := cueText |}
        end
  end.

(** [for (const block of blocks)]: the cues pushed, and the number of
    identifiers drawn. *)
Definition parse_blocks (body : string -> list string -> option Cue.t)
    (blocks : list string) (calls : nat) : list Cue.t * nat :=
  fold_left
    (fun acc block =>
       let '(cues, calls) := acc in
       let lines := split_on lf (trim block) in
       match body (gen calls) lines with
       | Some cue => (cues ++ [cue], S calls)
       | None => (cues, calls)
       end)
    blocks ([], calls).

(** Parse SRT (SubRip) format into cues *)
Definition parseSRT (text : string) (calls : nat) : list Cue.t * nat :=
  parse_blocks srt_block (Re.split BLANK (trim text)) calls.

(** Parse WebVTT format into cues *)
Definition parseVTT (text : string) (calls : nat) : list Cue.t * nat :=
  (* Remove WEBVTT header and any metadata *)
  match after_first (newline ++ newline) text with
  | None => ([], calls)
  | Some body => parse_blocks vtt_block (Re.split BLANK (trim body)) calls
  end.

(** Auto-detect format and parse *)
Definition parseSubtitles (text : string) (calls : nat)
  : list Cue.t * nat :=
  let trimmed := trim text in
  if startsWith "WEBVTT" trimmed then parseVTT trimmed calls
  else parseSRT trimmed calls.

End WithUid.

End Subtitles.

(** *** Well-formed input, for stating what the parsers accept *)

(** A time stamp, and its text with two-digit hours, minutes and seconds
    and three-digit milliseconds. *)
Module Stamp.
Record t := mk
  { hours : nat;
    minutes : nat;
    seconds : nat;
    millis : nat }.

Definition in_range (s : t) : Prop :=
  (hours s < 100)%nat /\ (minutes s < 100)%nat /\ (seconds s < 100)%nat /\
  (millis s < 1000)%nat.

Definition digit_char (n : nat) : ascii := ascii_of_nat (48 + n mod 10).

Definition two (n : nat) : string :=
  String (digit_char (n / 10)) (String (digit_char n) EmptyString).

Definition three (n : nat) : string :=
  String (digit_char (n / 100)) (two n).

(** [HH:MM:SS<sep>mmm] *)
Definition text (sep : ascii) (s : t) : string :=
  (two (hours s) ++ ":" ++ two (minutes s) ++ ":" ++ two (seconds s)
   ++ String sep (three (millis s)))%string.

(** The time in seconds. *)
Definition value (s : t) : Q :=
  inject_Z (Z.of_nat (hours s)) * 3600 + inject_Z (Z.of_nat (minutes s)) * 60
  + inject_Z (Z.of_nat (seconds s)) + inject_Z (Z.of_nat (millis s)) / 1000.

(** [<from> --> <to>] *)
Definition line (sep : ascii) (from to : t) : string :=
  (text sep from ++ " --> " ++ text sep to)%string.
End Stamp.

(** Cue text as a sequence of plain runs and tags. *)
Inductive Piece :=
  | plain (s : string)
  | tag (body : string).

Definition piece_ok (p : Piece) : Prop :=
  match p with
  | plain s => str_includes "<" s = false
  | tag body => body <> EmptyString /\ str_includes ">" body = false
  end.

Definition piece_text (p : Piece) : string :=
  match p with
  | plain s => s
  | tag body => ("<" ++ body ++ ">")%string
  end.

Definition piece_plain (p : Piece) : string :=
  match p with
  | plain s => s
  | tag _ => EmptyString
  end.

Definition markup (ps : list Piece) : string :=
  String.concat "" (List.map piece_text ps).

Definition without_markup (ps : list Piece) : string :=
  String.concat "" (List.map piece_plain ps).

(** The captures of one time stamp. *)
Definition stamp_caps (t : Stamp.t) : Re.Captures :=
  [Some (Stamp.two (Stamp.hours t)); Some (Stamp.two (Stamp.minutes t));
   Some (Stamp.two (Stamp.seconds t)); Some (Stamp.three (Stamp.millis t))].

(** The cue of a block with the time line [from --> to] and the text
    lines [texts]. *)
Definition cue_of (newId : string) (a b : Stamp.t) (texts : list string)
  : Cue.t :=
  {| Cue.id := newId; Cue.startTime := Stamp.value a;
     Cue.endTime := Stamp.value b;
     Cue.text := Subtitles.stripTags (String.concat newline texts) |}.

(* ================================================================== *)
(** ** Sample data *)

Module Sample.

(** A video clip occupying [[2, 6)] on the timeline. *)
Definition clip : Element :=
  createVideoElement "a" [PNum k_startTime 2; PNum k_duration 4].

Definition store : Store.t :=
  {| Store.elements := [clip]; Store.selectedIds := [] |}.

Definition no_drag : DragStart.t :=
  {| DragStart.mouseX := 0; DragStart.startTime := 0;
     DragStart.duration := 0; DragStart.trimIn := 0 |}.

(** The timeline at its default zoom of 80 pixels per second, playhead
    at 0, snapping on. *)
Definition panel : Panel.t :=
  {| Panel.store := store; Panel.currentTime := 0;
     Panel.timelineZoom := 80; Panel.snapEnabled := true;
     Panel.timelineTool := tool_select; Panel.dragMode := None;
     Panel.dragId := None; Panel.dragStartRef := no_drag;
     Panel.uidCalls := 0 |}.

Definition gen : UidGen :=
  fun n => ("uid-" ++ String (Ascii.ascii_of_nat (48 + n)) "")%string.

(** The panel in the middle of a trim-left drag of the clip, grabbed at
    pointer position 0. *)
Definition trimming : Panel.t :=
  Panel.with_drag (Some trim_left) (Some "a"%string)
    {| DragStart.mouseX := 0; DragStart.startTime := 2;
       DragStart.duration := 4; DragStart.trimIn := 0 |}
    panel.

(** A video clip whose source window starts 10 ms into the media, and
    its pre-loaded source, which rests at time 0 after loading. *)
Definition late_clip : Element :=
  createVideoElement "a" [PStr k_src "a.mp4"; PNum k_trimIn (1 # 100)].

Definition loaded : gmap string Canvas.Video :=
  {[ "a"%string := {| Canvas.video_src := "a.mp4";
                      Canvas.currentTime := 0 |} ]}.

(** A text measure: 10 pixels per character. *)
Definition measure (f : Canvas.Font) (s : string) : Q :=
  inject_Z (Z.of_nat (10 * String.length s)).

Definition never (n : nat) : bool := false.

(** A title that fades in over the first second of its window
    [[2, 6)]. *)
Definition title : Element :=
  createTextElement "t" 0 0
    [PNum k_startTime 2; PNum k_duration 4; PAnim k_animation fadeIn;
     PNum k_animDuration 1; PEasing linear].


(** Playback running at 2.5 s. *)
Definition playing : Preview.Ctx :=
  {| Preview.currentTime := 5 # 2; Preview.isPlaying := true;
     Preview.selectedIds := []; Preview.dragging := None |}.

(** Export at two frames per second. *)
Definition two_fps : ExportPipeline.Settings :=
  {| ExportPipeline.width := 1920; ExportPipeline.height := 1080;
     ExportPipeline.fps := 2; ExportPipeline.videoBitrate := "5M";
     ExportPipeline.audioBitrate := "192k";
     ExportPipeline.format := ExportPipeline.mp4 |}.

(** The abort signal is raised between the third and the fourth read. *)
Definition abort_after_three (n : nat) : bool := Nat.leb 3 n.

Definition encoder_ok (s : ExportPipeline.Settings)
    (frames : list ExportPipeline.Frame) : option ExportPipeline.File :=
  Some (ExportPipeline.encoded (ExportPipeline.format s) frames).

Definition encoder_fails (s : ExportPipeline.Settings)
    (frames : list ExportPipeline.Frame) : option ExportPipeline.File :=
  None.

(** A 10 s source clip, selected, with the analysis result
    [(0,1) silence, (1,3) speech, (3,6) silence, (6,9) speech]. *)
Definition source : Element :=
  createVideoElement "src" [PStr k_src "talk.mp4"; PNum k_duration 10].

Definition cutting : AutoCut.t :=
  {| AutoCut.store :=
       {| Store.elements := [source]; Store.selectedIds := ["src"%string] |};
     AutoCut.regions :=
       Some [ {| Region.start := 0; Region.end_ := 1;
                 Region.type := silence |};
              {| Region.start := 1; Region.end_ := 3;
                 Region.type := speech |};
              {| Region.start := 3; Region.end_ := 6;
                 Region.type := silence |};
              {| Region.start := 6; Region.end_ := 9;
                 Region.type := speech |} ];
     AutoCut.applied := false;
     AutoCut.uidCalls := 0 |}.

(** An SRT block and a WebVTT block for the same cue, each without a
    leading index or id line. *)
Definition srt_cue_no_index : string :=
  ("00:00:01,000 --> 00:00:02,500" ++ newline ++ "Hello <b>there</b>"
   ++ newline ++ "World")%string.

Definition vtt_cue_no_id : string :=
  ("WEBVTT" ++ newline ++ newline ++ "00:00:01.000 --> 00:00:02.500"
   ++ newline ++ "Hello <b>there</b>" ++ newline ++ "World")%string.

Definition one_second : Stamp.t :=
  {| Stamp.hours := 0; Stamp.minutes := 0; Stamp.seconds := 1;
     Stamp.millis := 0 |}.

Definition two_and_a_half : Stamp.t :=
  {| Stamp.hours := 0; Stamp.minutes := 0; Stamp.seconds := 2;
     Stamp.millis := 500 |}.

End Sample.

(* ================================================================== *)
(** * Properties *)

Section StoreFacts.

Lemma spread_nil (e : Element) : spread e [] = e.
Proof. destruct e; reflexivity. Qed.

Lemma updateElement_elements id p s :
  Store.elements (Store.updateElement id p s) =
  List.map (fun e => if str_eqb (El.id e) id then spread e p else e)
    (Store.elements s).
Proof. reflexivity. Qed.

Lemma updateElement_nil id s : Store.updateElement id [] s = s.
Proof.
  destruct s as [els sel]. unfold Store.updateElement; simpl. f_equal.
  induction els as [|e els IH]; simpl; [reflexivity|].
  rewrite IH. destruct (str_eqb (El.id e) id); [rewrite spread_nil|]; reflexivity.
Qed.

Lemma spread_timing_ok e p :
  timing_ok e -> patch_timing_ok p -> timing_ok (spread e p).
Proof.
  intros [Hd Hs] [Pd Ps]. unfold timing_ok, spread; simpl. split.
  - destruct (get_num k_duration p) as [d|] eqn:E; simpl; auto.
  - destruct (get_num k_startTime p) as [t|] eqn:E; simpl; auto.
Qed.

Lemma updateElement_timing_ok id p s :
  Forall timing_ok (Store.elements s) -> patch_timing_ok p ->
  Forall timing_ok (Store.elements (Store.updateElement id p s)).
Proof.
  intros H Hp. rewrite updateElement_elements.
  induction H as [|e els He Hels IH]; simpl; constructor; auto.
  destruct (str_eqb (El.id e) id); auto using spread_timing_ok.
Qed.

End StoreFacts.

Section NumFacts.

Lemma ltb_spec (a b : Q) : reflect (a < b) (Math.ltb a b).
Proof.
  unfold Math.ltb. destruct (a ?= b) eqn:E; constructor.
  - apply Qeq_alt in E. lra.
  - apply Qlt_alt in E. exact E.
  - apply Qgt_alt in E. lra.
Qed.

Lemma leb_spec (a b : Q) : reflect (a <= b) (Math.leb a b).
Proof.
  unfold Math.leb. destruct (a ?= b) eqn:E; constructor.
  - apply Qeq_alt in E. lra.
  - apply Qlt_alt in E. lra.
  - apply Qgt_alt in E. lra.
Qed.

Lemma max_cases (a b : Q) :
  (a <= b /\ Math.max a b == b) \/ (b <= a /\ Math.max a b == a).
Proof.
  unfold Math.max. destruct (Q.max_spec a b) as [[H E]|[H E]]; [left|right];
    split; auto; lra.
Qed.

Lemma min_cases (a b : Q) :
  (a <= b /\ Math.min a b == a) \/ (b <= a /\ Math.min a b == b).
Proof.
  unfold Math.min. destruct (Q.min_spec a b) as [[H E]|[H E]]; [left|right];
    split; auto; lra.
Qed.

Lemma clamp_bounds (v lo hi : Q) :
  lo <= hi -> lo <= clamp v lo hi /\ clamp v lo hi <= hi.
Proof.
  intros H. unfold clamp.
  destruct (max_cases v lo) as [[H1 E1]|[H1 E1]];
    destruct (min_cases (Math.max v lo) hi) as [[H2 E2]|[H2 E2]]; lra.
Qed.

End NumFacts.

Section SnapFacts.

Variable t : Q.

Lemma scan_cons c cs acc : scan t (c :: cs) acc = scan t cs (snap_try t c acc).
Proof. reflexivity. Qed.

Lemma scan_app cs1 cs2 acc : scan t (cs1 ++ cs2) acc = scan t cs2 (scan t cs1 acc).
Proof. unfold scan. apply fold_left_app. Qed.

Lemma scan_none cs best bd :
  (forall c, In c cs -> ~ Qabs (t - c) < bd) ->
  scan t cs (best, bd) = (best, bd).
Proof.
  induction cs as [|c cs IH]; intros H; [reflexivity|].
  rewrite scan_cons. unfold snap_try; cbn [fst snd].
  destruct (ltb_spec (Math.abs (t - c)) bd) as [L|L].
  - exfalso. apply (H c); simpl; auto.
  - apply IH. intros c' Hc'. apply H; simpl; auto.
Qed.

Lemma within_dec cs (d : Q) :
  (exists c, In c cs /\ Qabs (t - c) < d) \/
  (forall c, In c cs -> ~ Qabs (t - c) < d).
Proof.
  induction cs as [|c cs [IH|IH]].
  - right. intros c [].
  - left. destruct IH as [c' [H1 H2]]. exists c'. simpl; auto.
  - destruct (ltb_spec (Qabs (t - c)) d) as [L|L].
    + left. exists c. simpl; auto.
    + right. intros c' [<-|Hc']; auto.
Qed.

Lemma scan_some cs : forall best bd,
  (exists c, In c cs /\ Qabs (t - c) < bd) ->
  exists l1 c l2,
    cs = l1 ++ c :: l2 /\
    scan t cs (best, bd) = (c, Qabs (t - c)) /\
    Qabs (t - c) < bd /\
    (forall c', In c' l1 -> Qabs (t - c) < Qabs (t - c')) /\
    (forall c', In c' l2 -> Qabs (t - c) <= Qabs (t - c')).
Proof.
  induction cs as [|c cs IH]; intros best bd [c0 [Hin Hlt]];
    [destruct Hin|].
  rewrite scan_cons. unfold snap_try; cbn [fst snd].
  destruct (ltb_spec (Math.abs (t - c)) bd) as [L|L]; unfold Math.abs in *.
  - (* [c] becomes the best so far *)
    destruct (within_dec cs (Qabs (t - c))) as [Hsome|Hnone].
    + destruct (IH c (Qabs (t - c)) Hsome)
        as (l1 & c1 & l2 & -> & Hr & Hlt1 & Hl1 & Hl2).
      exists (c :: l1), c1, l2. repeat split; auto.
      * lra.
      * intros c' [<-|Hc']; auto.
    + exists [], c, cs. repeat split; auto.
      * apply scan_none. exact Hnone.
      * intros c' [].
      * intros c' Hc'. specialize (Hnone c' Hc'). lra.
  - (* [c] is not closer than the best so far *)
    assert (Hsome : exists c1, In c1 cs /\ Qabs (t - c1) < bd).
    { destruct Hin as [<-|Hin]; [contradiction|]. eauto. }
    destruct (IH best bd Hsome)
      as (l1 & c1 & l2 & -> & Hr & Hlt1 & Hl1 & Hl2).
    exists (c :: l1), c1, l2. repeat split; auto.
    intros c' [<-|Hc']; auto. lra.
Qed.

End SnapFacts.

Section SnapTime.

Lemma edges_scan t ig els : forall acc,
  fold_left
    (fun acc el =>
       if is_ignored el ig then acc
       else snap_try t (El.startTime el + El.duration el)
              (snap_try t (El.startTime el) acc))
    els acc
  = scan t
      (flat_map
         (fun el =>
            if is_ignored el ig then []
            else [El.startTime el; El.startTime el + El.duration el])
         els) acc.
Proof.
  induction els as [|el els IH]; intros acc; [reflexivity|].
  cbn [fold_left flat_map]. rewrite IH, scan_app.
  destruct (is_ignored el ig); reflexivity.
Qed.

Lemma snapTime_scan p t ig :
  Panel.snapEnabled p = true ->
  snapTime p t ig =
  fst (scan t (snap_candidates p t ig)
         (t, pxToTime (Panel.timelineZoom p) 8)).
Proof.
  intros En. unfold snapTime, snap_candidates. rewrite En. cbn [negb].
  rewrite edges_scan, scan_cons, scan_app.
  set (acc := scan t _ _).
  change (scan t [Math.round t] acc) with (snap_try t (Math.round t) acc).
  unfold snap_try.
  destruct (Math.ltb (Math.abs (t - Math.round t)) (snd acc)); reflexivity.
Qed.

End SnapTime.

(** C4.  With snapping enabled (and a positive zoom, which the timeline
    store maintains), [snapTime t excludeId] returns [t] itself when no
    candidate (the playhead, a start or end edge of another element, the
    nearest whole second) is closer to [t] than the threshold of 8 pixels;
    otherwise it returns a candidate that is closer than the threshold,
    strictly closer than every candidate scanned before it and at least as
    close as every candidate scanned after it: the closest one, the first
    in scan order among equally close ones. *)
Theorem snapTime_closest_first_scanned (p : Panel.t) (t : Q)
    (excludeId : option string) :
  Panel.snapEnabled p = true ->
  0 < Panel.timelineZoom p ->
  let threshold := pxToTime (Panel.timelineZoom p) 8 in
  let cs := snap_candidates p t excludeId in
  ((forall c, In c cs -> ~ Qabs (t - c) < threshold) ->
   snapTime p t excludeId = t) /\
  ((exists c, In c cs /\ Qabs (t - c) < threshold) ->
   exists l1 c l2,
     cs = l1 ++ c :: l2 /\
     snapTime p t excludeId = c /\
     Qabs (t - c) < threshold /\
     (forall c', In c' l1 -> Qabs (t - c) < Qabs (t - c')) /\
     (forall c', In c' l2 -> Qabs (t - c) <= Qabs (t - c'))).
Proof.
  intros En _ threshold cs. split.
  - intros Hnone. rewrite snapTime_scan by exact En.
    fold threshold cs. rewrite scan_none by exact Hnone. reflexivity.
  - intros Hsome. rewrite snapTime_scan by exact En. fold threshold cs.
    destruct (scan_some t cs t threshold Hsome)
      as (l1 & c & l2 & E & Hr & Hlt & Hl1 & Hl2).
    exists l1, c, l2. rewrite Hr. repeat split; auto.
Qed.

Lemma snapTime_closest_first_scanned_witness :
  let p := Sample.panel in
  let t := 119 # 20 in
  let threshold := pxToTime (Panel.timelineZoom p) 8 in
  let cs := snap_candidates p t (Some "b"%string) in
  ((forall c, In c cs -> ~ Qabs (t - c) < threshold) ->
   snapTime p t (Some "b"%string) = t) /\
  ((exists c, In c cs /\ Qabs (t - c) < threshold) ->
   exists l1 c l2,
     cs = l1 ++ c :: l2 /\
     snapTime p t (Some "b"%string) = c /\
     Qabs (t - c) < threshold /\
     (forall c', In c' l1 -> Qabs (t - c) < Qabs (t - c')) /\
     (forall c', In c' l2 -> Qabs (t - c) <= Qabs (t - c'))).
Proof.
  apply (snapTime_closest_first_scanned Sample.panel (119 # 20)
           (Some "b"%string)); reflexivity.
Defined.

(** Dragged to 5.95 s, within 8 px (0.1 s) of the clip's end edge at 6 s,
    the time snaps onto the edge; at 5.85 s it does not snap. *)
Example snapTime_end_edge :
  snapTime Sample.panel (119 # 20) (Some "b"%string) = 2 + 4 /\
  snapTime Sample.panel (117 # 20) (Some "b"%string) = 117 # 20.
Proof. split; reflexivity. Qed.

(** C1 (amended).  [updateElement] stores the merged values as they are:
    after any sequence of [updateElement] calls on a list whose elements
    satisfy the timing invariants, every element still has
    [duration >= 0.1] and [startTime >= 0] provided each patch that sets
    [duration] sets it to at least 0.1 and each patch that sets [startTime]
    sets it to at least 0. *)
Theorem updateElement_keeps_timing_of_valid_patches
    (calls : list (string * Patch)) (s : Store.t) :
  Forall timing_ok (Store.elements s) ->
  Forall (fun c => patch_timing_ok (snd c)) calls ->
  Forall timing_ok (Store.elements (updateAll calls s)).
Proof.
  intros Hs Hc. revert s Hs.
  induction Hc as [|c calls Hp Hcalls IH]; intros s Hs; [exact Hs|].
  unfold updateAll in *. cbn [fold_left]. apply IH.
  apply updateElement_timing_ok; assumption.
Qed.

Lemma updateElement_keeps_timing_of_valid_patches_witness :
  Forall timing_ok
    (Store.elements
       (updateAll [("a"%string, [PNum k_duration (1 # 2)]);
                   ("a"%string, [PNum k_startTime 0])] Sample.store)).
Proof.
  apply updateElement_keeps_timing_of_valid_patches.
  - repeat constructor; unfold Qle; simpl; lia.
  - repeat constructor; cbn; intros ? [= <-]; unfold Qle; simpl; lia.
Defined.

(** C1, as stated, fails: a patch that sets [duration] to 0 is stored
    unchecked. *)
Lemma updateElement_stores_invalid_duration :
  Forall timing_ok (Store.elements Sample.store) /\
  ~ Forall timing_ok
      (Store.elements
         (updateAll [("a"%string, [PNum k_duration 0])] Sample.store)).
Proof.
  split.
  - repeat constructor; unfold Qle; simpl; lia.
  - intros H. inversion H as [|e l [Hd _] _]; subst.
    revert Hd. unfold Qle; simpl; lia.
Qed.

Section TrimLeft.

Lemma spread_id_unset e p : get_str k_id p = None -> El.id (spread e p) = El.id e.
Proof. intros H. unfold spread; simpl. rewrite H. reflexivity. Qed.

Lemma updateElement_twice id p1 p2 s :
  get_str k_id p1 = None ->
  Store.elements (Store.updateElement id p2 (Store.updateElement id p1 s)) =
  List.map
    (fun e => if str_eqb (El.id e) id then spread (spread e p1) p2 else e)
    (Store.elements s).
Proof.
  intros H. rewrite !updateElement_elements, List.map_map.
  apply List.map_ext. intros e.
  destruct (str_eqb (El.id e) id) eqn:E.
  - rewrite spread_id_unset by exact H. rewrite E. reflexivity.
  - rewrite E. reflexivity.
Qed.

Lemma str_eqb_spec a b : reflect (a = b) (str_eqb a b).
Proof. apply String.eqb_spec. Qed.

End TrimLeft.

(** C5 (amended).  In a trim-left drag whose reference snapshot
    [(refStart, refDuration, refTrimIn)] satisfies the timing invariants,
    with pointer delta [dt]: the new [startTime] is
    [clamp(refStart + dt, 0, refStart + refDuration - 0.1)], snapped, then
    clamped to the same range again; the new [duration] is
    [refDuration - (newStart - refStart)], so the end edge stays where it
    was; for a video or audio element [trimIn] becomes
    [max(0, refTrimIn + (newStart - refStart))], and for other elements it is
    untouched.  Elements other than the dragged one are unchanged. *)
Theorem trim_left_drag (p : Panel.t) (id : string) (el : Element) (clientX : Q) :
  Panel.dragMode p = Some trim_left ->
  Panel.dragId p = Some id ->
  find_by_id id (Store.elements (Panel.store p)) = Some el ->
  let refStart := DragStart.startTime (Panel.dragStartRef p) in
  let refDuration := DragStart.duration (Panel.dragStartRef p) in
  let refTrimIn := DragStart.trimIn (Panel.dragStartRef p) in
  0 <= refStart ->
  (1 # 10) <= refDuration ->
  let dt :=
    pxToTime (Panel.timelineZoom p)
      (clientX - DragStart.mouseX (Panel.dragStartRef p)) in
  let hi := refStart + refDuration - (1 # 10) in
  let newStart :=
    clamp (snapTime p (clamp (refStart + dt) 0 hi) (Some id)) 0 hi in
  forall (i : nat) (e : Element),
    nth_error (Store.elements (Panel.store p)) i = Some e ->
    exists e',
      nth_error
        (Store.elements (Panel.store (onTimelineMouseMove clientX p))) i
      = Some e' /\
      (El.id e <> id -> e' = e) /\
      (El.id e = id ->
       El.startTime e' = newStart /\
       El.duration e' == refDuration - (newStart - refStart) /\
       El.startTime e' + El.duration e' == refStart + refDuration /\
       (is_media (El.type el) = true ->
        exists ti, El.trimIn e' = Some ti /\
                   ti == Qmax 0 (refTrimIn + (newStart - refStart))) /\
       (is_media (El.type el) = false -> El.trimIn e' = El.trimIn e)).
Proof.
  intros Hm Hd Hf refStart refDuration refTrimIn H0 H1 dt hi newStart i e Hi.
  assert (Hhi : 0 <= hi) by (unfold hi; lra).
  assert (Hns : newStart <= hi) by (apply clamp_bounds; exact Hhi).
  assert (Hdur : Math.max (1 # 10) (refDuration - (newStart - refStart))
                 == refDuration - (newStart - refStart)).
  { destruct (max_cases (1 # 10) (refDuration - (newStart - refStart)))
      as [[_ E]|[L E]]; [exact E|]. unfold hi in Hns. lra. }
  unfold onTimelineMouseMove. rewrite Hm, Hd, Hf.
  fold refStart refDuration refTrimIn. cbv zeta.
  fold dt. fold hi. fold newStart.
  destruct (is_media (El.type el)) eqn:Em; cbn [Panel.store Panel.with_store].
  - rewrite updateElement_twice by reflexivity.
    rewrite List.nth_error_map, Hi. cbn [option_map].
    eexists; split; [reflexivity|]. split.
    + intros Hne. destruct (str_eqb_spec (El.id e) id); [contradiction|reflexivity].
    + intros He. destruct (str_eqb_spec (El.id e) id); [|contradiction].
      cbn. repeat split.
      * exact Hdur.
      * rewrite Hdur. ring.
      * intros _. eexists; split; [reflexivity|]. reflexivity.
      * discriminate.
  - rewrite updateElement_elements.
    rewrite List.nth_error_map, Hi. cbn [option_map].
    eexists; split; [reflexivity|]. split.
    + intros Hne. destruct (str_eqb_spec (El.id e) id); [contradiction|reflexivity].
    + intros He. destruct (str_eqb_spec (El.id e) id); [|contradiction].
      cbn. repeat split.
      * exact Hdur.
      * rewrite Hdur. ring.
      * discriminate.
Qed.

Lemma trim_left_drag_witness :
  exists e',
    nth_error
      (Store.elements
         (Panel.store (onTimelineMouseMove (40 # 1) Sample.trimming))) 0
    = Some e' /\
    El.startTime e' + El.duration e' == 2 + 4.
Proof.
  destruct (trim_left_drag Sample.trimming "a"%string Sample.clip (40 # 1)
              eq_refl eq_refl eq_refl
              ltac:(unfold Qle; simpl; lia) ltac:(unfold Qle; simpl; lia)
              0%nat Sample.clip eq_refl)
    as (e' & Hn & _ & H).
  exists e'. split; [exact Hn|].
  destruct (H eq_refl) as (_ & _ & Hend & _). exact Hend.
Defined.

(** C5, as stated, fails: dragging the left edge of a clip whose [trimIn]
    is 0 one second to the left moves [startTime] from 2 to 1 but leaves
    [trimIn] at 0 instead of shifting it by the same delta to -1. *)
Lemma trim_left_trimIn_floor_at_zero :
  let p := Sample.trimming in
  let ref := Panel.dragStartRef p in
  exists e',
    Store.elements (Panel.store (onTimelineMouseMove (- (80 # 1)) p)) = [e'] /\
    El.type e' = video /\
    El.startTime e' == 1 /\
    El.trimIn e' = Some 0 /\
    ~ 0 == DragStart.trimIn ref + (El.startTime e' - DragStart.startTime ref).
Proof.
  eexists. split; [vm_compute; reflexivity|].
  repeat split; try reflexivity. cbn. intros H. revert H. unfold Qeq; simpl; lia.
Qed.

Section Blade.

Variable gen : UidGen.

Lemma split_element_outside el t p :
  t <= El.startTime el \/ El.startTime el + El.duration el <= t ->
  split_element gen el t p = p.
Proof.
  intros H. unfold split_element, Math.geb.
  destruct (leb_spec t (El.startTime el)); [reflexivity|].
  destruct (leb_spec (El.startTime el + El.duration el) t); [reflexivity|].
  exfalso. destruct H; contradiction.
Qed.

Lemma split_element_inside el t p :
  El.startTime el < t -> t < El.startTime el + El.duration el ->
  Store.elements (Panel.store (split_element gen el t p)) =
  List.map
    (fun e =>
       if str_eqb (El.id e) (El.id el)
       then spread e [PNum k_duration (t - El.startTime el)]
       else e)
    (Store.elements (Panel.store p))
  ++ [let h :=
        spread el [PStr k_id (gen (Panel.uidCalls p));
                   PStr k_name (El.name el ++ " (2)");
                   PNum k_startTime t;
                   PNum k_duration
                     (El.duration el - (t - El.startTime el))] in
      if is_media (El.type el)
      then spread h [PNum k_trimIn
                       (or_zero (El.trimIn el) + (t - El.startTime el))]
      else h].
Proof.
  intros H1 H2. unfold split_element, Math.geb.
  destruct (leb_spec t (El.startTime el)); [lra|].
  destruct (leb_spec (El.startTime el + El.duration el) t); [lra|].
  reflexivity.
Qed.

End Blade.

(** C6.  A blade click at time [t] strictly inside the window of [e]
    truncates the duration of [e] to [t - e.startTime], leaving its other
    fields and all other elements as they were, and appends a new element
    that starts at [t], lasts [duration - (t - e.startTime)], has, for a
    video or audio element, [trimIn] advanced by [t - e.startTime], takes a
    newly drawn identifier and the name of [e] followed by " (2)", and
    agrees with [e] on every other field.  A click at or outside the window
    changes nothing.  [splitAtPlayhead] with only [e] selected is the same
    operation at the playhead time. *)
Theorem blade_split (gen : UidGen) (e : Element) (t : Q) (p : Panel.t) :
  let before := Store.elements (Panel.store p) in
  let after := Store.elements (Panel.store (bladeClip gen e t p)) in
  let offset := t - El.startTime e in
  (El.startTime e < t /\ t < El.startTime e + El.duration e ->
   exists second,
     length after = S (length before) /\
     (forall i e0, nth_error before i = Some e0 ->
        exists e1, nth_error after i = Some e1 /\
          (El.id e0 <> El.id e -> e1 = e0) /\
          (El.id e0 = El.id e ->
           El.duration e1 = offset /\
           agree_except [PNum k_duration 0] e1 e0)) /\
     nth_error after (length before) = Some second /\
     El.startTime second = t /\
     El.duration second == El.duration e - offset /\
     El.startTime second + El.duration second
       == El.startTime e + El.duration e /\
     El.id second = gen (Panel.uidCalls p) /\
     El.name second = (El.name e ++ " (2)")%string /\
     (is_media (El.type e) = true ->
      El.trimIn second = Some (or_zero (El.trimIn e) + offset)) /\
     (is_media (El.type e) = false -> El.trimIn second = El.trimIn e) /\
     agree_except
       [PStr k_id ""; PStr k_name ""; PNum k_startTime 0; PNum k_duration 0;
        PNum k_trimIn 0] second e) /\
  (t <= El.startTime e \/ El.startTime e + El.duration e <= t ->
   bladeClip gen e t p = p) /\
  (Store.selectedIds (Panel.store p) = [El.id e] ->
   find_by_id (El.id e) before = Some e ->
   Panel.currentTime p = t ->
   splitAtPlayhead gen p = bladeClip gen e t p).
Proof.
  intros before after offset. split; [|split].
  - intros [H1 H2]. unfold after, bladeClip.
    rewrite (split_element_inside gen e t p H1 H2). fold before offset.
    eexists. split; [|split; [|split]].
    + rewrite length_app, length_map. simpl. lia.
    + intros i e0 Hi.
      rewrite nth_error_app1
        by (rewrite length_map; apply nth_error_Some; congruence).
      rewrite List.nth_error_map, Hi. cbn [option_map].
      eexists; split; [reflexivity|]. split.
      * intros Hne.
        destruct (str_eqb_spec (El.id e0) (El.id e)); [contradiction|reflexivity].
      * intros He.
        destruct (str_eqb_spec (El.id e0) (El.id e)); [|contradiction].
        split; [reflexivity|]. destruct e0; reflexivity.
    + rewrite nth_error_app2 by (rewrite length_map; fold before; lia).
      rewrite length_map. fold before. rewrite Nat.sub_diag. reflexivity.
    + destruct e; cbn in *.
      match goal with |- context [is_media ?ty] => destruct ty end;
        cbn; repeat split; try reflexivity; try discriminate;
        unfold offset; cbn; ring.
  - intros H. apply split_element_outside. exact H.
  - intros Hsel Hfind Ht. unfold splitAtPlayhead, bladeClip.
    rewrite Hsel. cbn [fold_left]. fold before. rewrite Hfind, Ht. reflexivity.
Qed.

Section ExportFacts.
Import Canvas ExportPipeline.

Lemma seek_element_other t vs el (i : string) :
  El.id el <> i -> seek_element t vs el !! i = vs !! i.
Proof.
  intros Hne. unfold seek_element.
  destruct (El.type el); try reflexivity.
  destruct (El.visible el); try reflexivity.
  destruct (vs !! El.id el); try reflexivity.
  destruct (isInTime el t); try reflexivity.
  apply lookup_insert_ne. exact Hne.
Qed.

Lemma seek_all_other t els : forall vs (i : string),
  (forall el, In el els -> El.id el <> i) ->
  seek_all els t vs !! i = vs !! i.
Proof.
  induction els as [|el els IH]; intros vs i H; [reflexivity|].
  unfold seek_all in *. cbn [fold_left].
  rewrite IH by (intros el' Hel'; apply H; simpl; auto).
  apply seek_element_other. apply H. simpl; auto.
Qed.

Lemma seek_all_seeks t els : forall vs el v,
  List.NoDup (List.map El.id els) ->
  In el els ->
  El.type el = video -> El.visible el = true -> isInTime el t = true ->
  vs !! El.id el = Some v ->
  seek_all els t vs !! El.id el = Some (seekVideo v (sourceTime el t)).
Proof.
  induction els as [|e els IH]; intros vs el v Hnd Hin Hty Hvis Hact Hv;
    [destruct Hin|].
  cbn [List.map] in Hnd. apply List.NoDup_cons_iff in Hnd as [Hfresh Hnd].
  unfold seek_all in *. cbn [fold_left]. destruct Hin as [->|Hin].
  - fold (seek_all els t (seek_element t vs el)). rewrite seek_all_other.
    + unfold seek_element. rewrite Hty, Hvis, Hv, Hact.
      apply lookup_insert_eq.
    + intros el' Hel' E. apply Hfresh. rewrite <- E.
      apply in_map. exact Hel'.
  - apply IH; auto.
    rewrite seek_element_other; [exact Hv|].
    intros E. apply Hfresh. rewrite E. apply in_map. exact Hin.
Qed.

Lemma seekVideo_near v t :
  Qabs (currentTime (seekVideo v t) - t) < 2 # 100.
Proof.
  unfold seekVideo.
  destruct (ltb_spec (Math.abs (currentTime v - t)) (2 # 100)) as [L|L].
  - exact L.
  - cbn [currentTime]. apply Qabs_Qlt_condition. split; lra.
Qed.

Lemma seekVideo_far v t :
  2 # 100 <= Qabs (currentTime v - t) -> currentTime (seekVideo v t) = t.
Proof.
  intros H. unfold seekVideo.
  destruct (ltb_spec (Math.abs (currentTime v - t)) (2 # 100)) as [L|L].
  - unfold Math.abs in L. lra.
  - reflexivity.
Qed.

Lemma seekVideo_close v t :
  Qabs (currentTime v - t) < 2 # 100 -> seekVideo v t = v.
Proof.
  intros H. unfold seekVideo.
  destruct (ltb_spec (Math.abs (currentTime v - t)) (2 # 100)) as [L|L].
  - reflexivity.
  - contradiction.
Qed.

End ExportFacts.

Section RenderLoop.
Import Canvas ExportPipeline.

Variable measureText : Font -> string -> Q.
Variable settings : Settings.
Variable elements : list Element.
Variable duration : Q.
Variable images : gmap string Image.
Variable aborted : nat -> bool.
Variable videos : gmap string Video.

Hypothesis never_aborted : forall n, aborted n = false.

Lemma videos_at_before f :
  videos_at settings elements videos f =
  seek_all elements (frame_time settings f)
    (videos_before settings elements videos f).
Proof. destruct f; reflexivity. Qed.

Lemma render_frames_run todo : forall frame reads frameData,
  render_frames measureText settings elements images aborted
    todo frame reads (videos_before settings elements videos frame) frameData
  = Some (frameData
        ++ List.map
             (fun f =>
                renderFrameWithAssets measureText elements
                  (frame_time settings f) (width settings) (height settings)
                  images (videos_at settings elements videos f))
             (seq frame todo),
          videos_before settings elements videos (frame + todo),
          (reads + todo)%nat).
Proof.
  induction todo as [|todo IH]; intros frame reads frameData.
  - cbn [render_frames seq List.map]. rewrite app_nil_r, !Nat.add_0_r.
    reflexivity.
  - cbn [render_frames]. rewrite never_aborted.
    rewrite <- videos_at_before.
    change (videos_at settings elements videos frame)
      with (videos_before settings elements videos (S frame)).
    rewrite IH. cbn [seq List.map]. rewrite <- app_assoc.
    rewrite !Nat.add_succ_r. reflexivity.
Qed.

End RenderLoop.

Lemma or_one_nonzero r : ~ r == 0 -> or_one (Some r) = r.
Proof.
  intros H. unfold or_one. destruct (Qeq_bool r 0) eqn:E; [|reflexivity].
  apply Qeq_bool_iff in E. contradiction.
Qed.

(** C7 (amended).  When the run is not cancelled, the rendering loop of the
    export captures exactly [ceil(N * fps)] frames, for the frame indices
    [0 <= f < ceil(N * fps)]; frame [f] is the rendering of the elements at
    time [f / fps] against the video sources as they are after the seeks
    of that iteration.  In those seeks (element ids being distinct) every
    visible video element that is active at that time and has a pre-loaded
    source is passed to [seekVideo] with the target
    [trimIn + (time - startTime) * rate], where [rate] is [playbackRate],
    or 1 when [playbackRate] is 0 or missing; [seekVideo] moves the source
    to the target when it is 0.02 s or more away from it and leaves it
    where it is when it is closer, so that the source is drawn less than
    0.02 s from its target. *)
Theorem export_frames_and_seeks
    (measureText : Canvas.Font -> string -> Q)
    (settings : ExportPipeline.Settings) (elements : list Element)
    (N : Q) (images : gmap string Canvas.Image) (aborted : nat -> bool)
    (videos : gmap string Canvas.Video) :
  (forall n, aborted n = false) ->
  List.NoDup (List.map El.id elements) ->
  let fps := ExportPipeline.fps settings in
  let time (f : nat) := inject_Z (Z.of_nat f) / fps in
  exists frameData videos' reads,
    ExportPipeline.render_frames measureText settings elements images aborted
      (ExportPipeline.totalFrames settings N) 0 0 videos []
    = Some (frameData, videos', reads) /\
    length frameData = Z.to_nat (Math.ceil (N * fps)) /\
    forall f, (f < length frameData)%nat ->
      nth_error frameData f =
      Some (renderFrameWithAssets measureText elements (time f)
              (ExportPipeline.width settings) (ExportPipeline.height settings)
              images (videos_at settings elements videos f)) /\
      forall el v,
        In el elements ->
        El.type el = video -> El.visible el = true ->
        isInTime el (time f) = true ->
        videos_before settings elements videos f !! El.id el = Some v ->
        let target := ExportPipeline.sourceTime el (time f) in
        videos_at settings elements videos f !! El.id el
        = Some (ExportPipeline.seekVideo v target) /\
        Qabs (Canvas.currentTime (ExportPipeline.seekVideo v target) - target)
        < 2 # 100 /\
        (2 # 100 <= Qabs (Canvas.currentTime v - target) ->
         Canvas.currentTime (ExportPipeline.seekVideo v target) = target) /\
        (Qabs (Canvas.currentTime v - target) < 2 # 100 ->
         ExportPipeline.seekVideo v target = v) /\
        (forall ti r,
           El.trimIn el = Some ti -> El.playbackRate el = Some r ->
           ~ r == 0 ->
           target == ti + (time f - El.startTime el) * r).
Proof.
  intros Hab Hnd fps time.
  pose proof (render_frames_run measureText settings elements images aborted
                videos Hab (ExportPipeline.totalFrames settings N) 0 0 [])
    as Hrun.
  cbn [videos_before] in Hrun. rewrite Hrun. clear Hrun.
  eexists _, _, _. split; [reflexivity|]. cbn [app].
  split; [rewrite length_map, length_seq; reflexivity|].
  intros f Hf. rewrite length_map, length_seq in Hf. split.
  - rewrite List.nth_error_map, nth_error_seq.
    apply Nat.ltb_lt in Hf. rewrite Hf. reflexivity.
  - intros el v Hin Hty Hvis Hact Hv. cbv zeta.
    split; [|split; [|split; [|split]]].
    + rewrite videos_at_before. apply seek_all_seeks; assumption.
    + apply seekVideo_near.
    + apply seekVideo_far.
    + apply seekVideo_close.
    + intros ti r Hti Hr Hnz. unfold ExportPipeline.sourceTime.
      rewrite Hti, Hr, or_one_nonzero by exact Hnz. reflexivity.
Qed.

Lemma export_frames_and_seeks_witness :
  exists frameData videos' reads,
    ExportPipeline.render_frames Sample.measure
      ExportPipeline.DEFAULT_EXPORT_SETTINGS [Sample.clip] ∅ Sample.never
      (ExportPipeline.totalFrames ExportPipeline.DEFAULT_EXPORT_SETTINGS
         (1 # 10)) 0 0 Sample.loaded []
    = Some (frameData, videos', reads) /\
    length frameData = 3%nat.
Proof.
  destruct (export_frames_and_seeks Sample.measure
              ExportPipeline.DEFAULT_EXPORT_SETTINGS [Sample.clip] (1 # 10)
              ∅ Sample.never Sample.loaded)
    as (fd & vs & rd & Hrun & Hlen & _).
  - reflexivity.
  - repeat constructor; simpl; tauto.
  - exists fd, vs, rd. split; [exact Hrun|exact Hlen].
Defined.

(** C7, as stated, fails: a visible, active video element whose source
    rests at 0 and whose target at frame 0 is 0.01 s is not seeked; its
    source is drawn at 0, not at [trimIn + (time - startTime) * rate]. *)
Lemma seek_skipped_within_tolerance :
  let el := Sample.late_clip in
  let settings := ExportPipeline.DEFAULT_EXPORT_SETTINGS in
  let time := inject_Z (Z.of_nat 0) / ExportPipeline.fps settings in
  El.type el = video /\ El.visible el = true /\ isInTime el time = true /\
  exists v ti r,
    videos_at settings [el] Sample.loaded 0 !! El.id el = Some v /\
    El.trimIn el = Some ti /\ El.playbackRate el = Some r /\
    Canvas.currentTime v = 0 /\
    ~ Canvas.currentTime v == ti + (time - El.startTime el) * r.
Proof.
  cbv zeta. split; [reflexivity|]. split; [reflexivity|].
  split; [reflexivity|].
  exists {| Canvas.video_src := "a.mp4"; Canvas.currentTime := 0 |},
         (1 # 100), 1.
  split; [vm_compute; reflexivity|].
  split; [reflexivity|]. split; [reflexivity|]. split; [reflexivity|].
  cbn. unfold Qeq; simpl; lia.
Qed.

Lemma blade_split_witness :
  exists second,
    nth_error
      (Store.elements
         (Panel.store (bladeClip Sample.gen Sample.clip 3 Sample.panel))) 1
    = Some second /\
    El.startTime second = 3 /\
    El.duration second == 4 - (3 - 2) /\
    El.trimIn second = Some (0 + (3 - 2)).
Proof.
  destruct (blade_split Sample.gen Sample.clip 3 Sample.panel) as [H _].
  destruct H as (second & _ & _ & Hn & Hs & Hd & _ & _ & _ & Ht & _).
  - split; unfold Qlt; simpl; lia.
  - exists second. split; [exact Hn|]. split; [exact Hs|].
    split; [exact Hd|]. exact (Ht eq_refl).
Defined.

Section OverlayFacts.





End OverlayFacts.




(** C2.  The two rendering paths are different functions and disagree:
    half a second into the one-second fade-in of a title, the preview
    shows it at opacity 0.5 while the export paints it at its full
    opacity 1. *)
Lemma preview_and_export_disagree_on_fade_in :
  let el := Sample.title in
  let t := 5 # 2 in
  (exists n,
     Preview.renderElement Sample.playing el 0 = Some n /\
     Preview.opacity (Preview.style n) == 1 # 2) /\
  (let ops := draw_element Sample.measure t 1920 1080 ∅ ∅ el in
   In (Canvas.set_globalAlpha 1) ops /\
   forall a, In (Canvas.set_globalAlpha a) ops -> a = 1).
Proof.
  cbv zeta. split.
  - eexists. split; [vm_compute; reflexivity|]. reflexivity.
  - split.
    + vm_compute. tauto.
    + intros a H. vm_compute in H.
      repeat (destruct H as [H|H]; [try discriminate H|]);
        try contradiction; injection H as <-; reflexivity.
Qed.

(** C8.  Cancelling while the frames are being written, or a failure of
    the encoder, ends the run before its cleanup code: the frame files
    written so far stay in the file system. *)
Lemma export_leaves_frame_files_behind :
  let run aborted encoder :=
    ExportPipeline.exportProject Sample.measure Sample.two_fps [Sample.clip] 1
      ∅ aborted encoder Sample.loaded ∅ in
  (fst (run Sample.abort_after_three Sample.encoder_ok)
   = ExportPipeline.cancelled /\
   snd (run Sample.abort_after_three Sample.encoder_ok)
     !! "frame_000000.rgba"%string <> None) /\
  (fst (run Sample.never Sample.encoder_fails) = ExportPipeline.failed /\
   snd (run Sample.never Sample.encoder_fails)
     !! "frame_000000.rgba"%string <> None /\
   snd (run Sample.never Sample.encoder_fails)
     !! "frame_000001.rgba"%string <> None) /\
  (exists out,
     fst (run Sample.never Sample.encoder_ok) = ExportPipeline.returned out /\
     snd (run Sample.never Sample.encoder_ok) = ∅).
Proof.
  cbv zeta. split; [|split].
  - split; [vm_compute; reflexivity|]. vm_compute. discriminate.
  - split; [vm_compute; reflexivity|].
    split; vm_compute; discriminate.
  - eexists. split; [vm_compute; reflexivity|]. vm_compute. reflexivity.
Qed.

Section RegionClips.

Variable gen : UidGen.
Variable src : Element.

Lemma fold_apply_region rs : forall s off calls,
  exists off',
    fold_left (AutoCut.apply_region gen src) rs (s, off, calls) =
    ({| Store.elements :=
          Store.elements s ++ region_clips gen src off calls rs;
        Store.selectedIds := Store.selectedIds s |},
     off', (calls + length rs)%nat).
Proof.
  induction rs as [|r rs IH]; intros s off calls.
  - exists off. cbn. rewrite app_nil_r, Nat.add_0_r. destruct s; reflexivity.
  - cbn [fold_left AutoCut.apply_region].
    destruct (IH (Store.addElement
                    (AutoCut.region_clip src off (gen calls) r) s)
                (off + (Region.end_ r - Region.start r)) (S calls))
      as [off' ->].
    exists off'. cbn [Store.addElement Store.elements Store.selectedIds
                      region_clips length].
    rewrite <- app_assoc, Nat.add_succ_r. reflexivity.
Qed.

Lemma region_clips_length rs : forall off calls,
  length (region_clips gen src off calls rs) = length rs.
Proof.
  induction rs as [|r rs IH]; intros off calls; cbn; [|rewrite IH];
    reflexivity.
Qed.

Lemma region_clips_nth rs : forall off calls i r,
  nth_error rs i = Some r ->
  exists off_i,
    nth_error (region_clips gen src off calls rs) i
    = Some (AutoCut.region_clip src off_i (gen (calls + i)%nat) r) /\
    (i = 0%nat -> off_i = off) /\
    (forall e',
       nth_error (region_clips gen src off calls rs) (S i) = Some e' ->
       El.startTime e' = off_i + (Region.end_ r - Region.start r)).
Proof.
  induction rs as [|r0 rs IH]; intros off calls i r Hi.
  - destruct i; discriminate.
  - destruct i as [|i].
    + injection Hi as ->. exists off. rewrite Nat.add_0_r.
      split; [reflexivity|]. split; [reflexivity|].
      intros e' He'. cbn [region_clips nth_error] in He'.
      destruct rs as [|r1 rs]; [discriminate|].
      cbn in He'. injection He' as <-. reflexivity.
    + cbn [nth_error] in Hi.
      destruct (IH (off + (Region.end_ r0 - Region.start r0)) (S calls) i r Hi)
        as (off_i & Hn & _ & Hnext).
      exists off_i. cbn [region_clips nth_error].
      rewrite Nat.add_succ_r. split; [exact Hn|].
      split; [discriminate|]. exact Hnext.
Qed.

End RegionClips.

Lemma fresh_calls_distinct (gen : UidGen) (calls n : nat)
    (used : list string) (i j : nat) :
  fresh_calls gen calls n used -> (i < n)%nat -> (j < n)%nat ->
  gen (calls + j)%nat = gen (calls + i)%nat -> j = i.
Proof.
  intros [Hnd _] Hi Hj E.
  apply (proj1 (List.NoDup_nth_error _) Hnd).
  - rewrite List.length_map, List.length_seq. exact Hj.
  - rewrite !List.nth_error_map, !List.nth_error_seq.
    destruct (Nat.ltb_spec j n) as [_|?]; [|lia].
    destruct (Nat.ltb_spec i n) as [_|?]; [|lia].
    cbn. rewrite E. reflexivity.
Qed.

(** C9 (amended).  Applying [N >= 1] keep-regions [(s_1,e_1) ... (s_N,e_N)]
    (the speech regions of the analysis) to the selected source element
    removes the source and appends exactly [N] new elements; the first
    starts at the source's [startTime] and each next one starts where the
    previous one ends; the [i]-th has duration [e_i - s_i],
    [trimIn = (sourceTrimIn or 0) + s_i],
    [trimOut = (sourceTrimIn or 0) + e_i], a fresh identity (the
    identifier of its own call of [uid], which differs from the
    identifiers of the other new elements and of every element that was
    there before, the source included, when [uid] returns fresh
    identifiers), the source's name followed by the formatted region
    start in brackets, and agrees with the source on every other field.
    With no keep-region nothing is changed. *)
Theorem apply_keep_regions (gen : UidGen) (a : AutoCut.t)
    (rs : list Region.t) (src : Element) :
  AutoCut.regions a = Some rs ->
  AutoCut.selectedEl (AutoCut.store a) = Some src ->
  let keep := List.filter AutoCut.is_speech rs in
  let before := Store.elements (AutoCut.store a) in
  let after := Store.elements (AutoCut.store (AutoCut.handleApply gen a)) in
  fresh_calls gen (AutoCut.uidCalls a) (length keep) (List.map El.id before) ->
  (keep = [] -> AutoCut.handleApply gen a = a) /\
  (keep <> [] ->
   exists news,
    after =
    List.filter (fun e => negb (str_eqb (El.id e) (El.id src))) before ++ news /\
    length news = length keep /\
    forall i r, nth_error keep i = Some r ->
      exists e,
        nth_error news i = Some e /\
        El.duration e = Region.end_ r - Region.start r /\
        El.trimIn e = Some (or_zero (El.trimIn src) + Region.start r) /\
        El.trimOut e = Some (or_zero (El.trimIn src) + Region.end_ r) /\
        El.id e = gen (AutoCut.uidCalls a + i)%nat /\
        (forall old, In old before -> El.id e <> El.id old) /\
        (forall j e', nth_error news j = Some e' -> El.id e' = El.id e ->
           j = i) /\
        El.name e
        = (El.name src ++ " [" ++ formatTime (Region.start r) ++ "]")%string /\
        agree_except
          [PStr k_id ""; PStr k_name ""; PNum k_startTime 0;
           PNum k_duration 0; PNum k_trimIn 0; PNum k_trimOut 0] e src /\
        (i = 0%nat -> El.startTime e = El.startTime src) /\
        (forall e', nth_error news (S i) = Some e' ->
           El.startTime e' = El.startTime e + El.duration e)).
Proof.
  intros Hr Hs keep before after Hfresh. split.
  { intros Hkeep. unfold AutoCut.handleApply. rewrite Hr, Hs. fold keep.
    rewrite Hkeep. reflexivity. }
  intros Hkeep.
  unfold after, AutoCut.handleApply. rewrite Hr, Hs. fold keep.
  destruct keep as [|r0 keep'] eqn:Ek; [contradiction|]. rewrite <- Ek.
  rewrite <- Ek in Hfresh.
  destruct (fold_apply_region gen src keep
              (Store.deleteElements [El.id src] (AutoCut.store a))
              (El.startTime src) (AutoCut.uidCalls a)) as [off' ->].
  cbn [AutoCut.store Store.elements Store.deleteElements].
  exists (region_clips gen src (El.startTime src) (AutoCut.uidCalls a) keep).
  split; [|split].
  - f_equal. apply List.filter_ext. intros e. cbn. rewrite orb_false_r.
    reflexivity.
  - apply region_clips_length.
  - intros i r Hi.
    destruct (region_clips_nth gen src keep (El.startTime src)
                (AutoCut.uidCalls a) i r Hi) as (off_i & Hn & H0 & Hnext).
    assert (Li : (i < length keep)%nat)
      by (apply List.nth_error_Some; rewrite Hi; discriminate).
    eexists. split; [exact Hn|].
    do 4 (split; [reflexivity|]).
    split.
    { intros old Hold E. cbn in E.
      apply (proj2 Hfresh i Li). rewrite E. apply List.in_map. exact Hold. }
    split.
    { intros j e' Hj E.
      assert (Lj : (j < length keep)%nat).
      { rewrite <- (region_clips_length gen src keep (El.startTime src)
                      (AutoCut.uidCalls a)).
        apply List.nth_error_Some. rewrite Hj. discriminate. }
      destruct (nth_error keep j) as [rj|] eqn:Ej;
        [|apply List.nth_error_None in Ej; lia].
      destruct (region_clips_nth gen src keep (El.startTime src)
                  (AutoCut.uidCalls a) j rj Ej) as (off_j & Hnj & _ & _).
      rewrite Hnj in Hj. injection Hj as <-. cbn in E.
      exact (fresh_calls_distinct gen _ _ _ i j Hfresh Li Lj E). }
    split; [reflexivity|].
    split; [destruct src; reflexivity|].
    split.
    + intros Hi0. rewrite <- (H0 Hi0). reflexivity.
    + intros e' He'. rewrite (Hnext e' He'). reflexivity.
Qed.

Lemma apply_keep_regions_witness :
  exists news,
    Store.elements
      (AutoCut.store (AutoCut.handleApply Sample.gen Sample.cutting))
    = [] ++ news /\
    length news = 2%nat /\
    exists e, nth_error news 1 = Some e /\ El.duration e = 9 - 6 /\
      El.id e <> El.id Sample.source /\
      forall e', nth_error news 0 = Some e' -> El.id e' <> El.id e.
Proof.
  destruct (apply_keep_regions Sample.gen Sample.cutting
              [ {| Region.start := 0; Region.end_ := 1;
                   Region.type := silence |};
                {| Region.start := 1; Region.end_ := 3;
                   Region.type := speech |};
                {| Region.start := 3; Region.end_ := 6;
                   Region.type := silence |};
                {| Region.start := 6; Region.end_ := 9;
                   Region.type := speech |} ]
              Sample.source eq_refl eq_refl) as [_ H].
  - split.
    + cbn. repeat constructor; cbn; intuition discriminate.
    + intros i Hi. cbn in Hi. cbn.
      destruct i as [|[|i]]; [| |lia]; cbn; intuition discriminate.
  - destruct (H ltac:(discriminate)) as (news & Hafter & Hlen & Hnth).
    exists news. split; [exact Hafter|]. split; [exact Hlen|].
    destruct (Hnth 1%nat {| Region.start := 6; Region.end_ := 9;
                            Region.type := speech |} eq_refl)
      as (e & He & Hd & _ & _ & _ & Hold & Hnew & _).
    exists e. split; [exact He|]. split; [exact Hd|]. split.
    + apply Hold. left. reflexivity.
    + intros e' He' E. specialize (Hnew 0%nat e' He' E). discriminate.
Defined.

(** C9, as stated, fails: the new clips do not inherit the source's
    name. *)
Lemma region_clip_is_renamed :
  exists e1 e2,
    Store.elements
      (AutoCut.store (AutoCut.handleApply Sample.gen Sample.cutting))
    = [e1; e2] /\
    El.duration e1 == 2 /\ El.duration e2 == 3 /\
    El.name Sample.source = "Video"%string /\
    El.name e1 = "Video [00:01.00]"%string /\
    El.name e1 <> El.name Sample.source.
Proof.
  eexists _, _. split; [vm_compute; reflexivity|].
  repeat split. cbn. discriminate.
Qed.

Section ReFacts.
Import Subtitles.
Context {R : Type}.
Implicit Types (k : string -> Re.Captures -> option R).

Lemma run_lit c s caps k :
  Re.run (Re.lit c) (String c s) caps k = k s caps.
Proof. cbn. rewrite Ascii.eqb_refl. reflexivity. Qed.

Lemma run_chr p c s caps k :
  p c = true -> Re.run (Re.Chr p) (String c s) caps k = k s caps.
Proof. intros H. cbn. rewrite H. reflexivity. Qed.

Lemma prefix_len2 a b s :
  String.substring 0
    (String.length (String a (String b s)) - String.length s)
    (String a (String b s))
  = String a (String b "").
Proof.
  replace (String.length (String a (String b s)) - String.length s)%nat
    with 2%nat by (cbn [String.length]; lia).
  cbn. destruct s; reflexivity.
Qed.

Lemma prefix_len3 a b c s :
  String.substring 0
    (String.length (String a (String b (String c s))) - String.length s)
    (String a (String b (String c s)))
  = String a (String b (String c "")).
Proof.
  replace (String.length (String a (String b (String c s)))
           - String.length s)%nat
    with 3%nat by (cbn [String.length]; lia).
  cbn. destruct s; reflexivity.
Qed.

Lemma run_d2 a b s caps k :
  is_digit a = true -> is_digit b = true ->
  Re.run d2 (String a (String b s)) caps k
  = k s (caps ++ [Some (String a (String b ""))]).
Proof.
  intros Ha Hb. unfold d2, digit. cbn [Re.run]. rewrite Ha, Hb, prefix_len2.
  reflexivity.
Qed.

Lemma run_d3 a b c s caps k :
  is_digit a = true -> is_digit b = true -> is_digit c = true ->
  Re.run d3 (String a (String b (String c s))) caps k
  = k s (caps ++ [Some (String a (String b (String c "")))]).
Proof.
  intros Ha Hb Hc. unfold d3, digit. cbn [Re.run].
  rewrite Ha, Hb, Hc, prefix_len3. reflexivity.
Qed.
End ReFacts.

Section DigitFacts.

Lemma nat_of_digit_char n :
  nat_of_ascii (Stamp.digit_char n) = (48 + n mod 10)%nat.
Proof.
  unfold Stamp.digit_char. apply nat_ascii_embedding.
  pose proof (Nat.mod_upper_bound n 10). lia.
Qed.

Lemma is_digit_digit_char n : is_digit (Stamp.digit_char n) = true.
Proof.
  unfold is_digit. rewrite nat_of_digit_char.
  pose proof (Nat.mod_upper_bound n 10).
  apply andb_true_intro; split; apply Nat.leb_le; lia.
Qed.

Lemma is_space_digit_char n : is_space (Stamp.digit_char n) = false.
Proof.
  unfold is_space. rewrite nat_of_digit_char.
  pose proof (Nat.mod_upper_bound n 10).
  apply orb_false_intro; [apply orb_false_intro|].
  - apply andb_false_intro2. apply Nat.leb_gt. lia.
  - apply Nat.eqb_neq. lia.
  - apply Nat.eqb_neq. lia.
Qed.

Lemma parseInt_two n :
  (n < 100)%nat -> parseInt (Stamp.two n) = inject_Z (Z.of_nat n).
Proof.
  intros H. unfold parseInt, Stamp.two. cbn [list_ascii_of_string fold_left].
  rewrite !nat_of_digit_char. do 2 f_equal.
  pose proof (Nat.div_mod_eq n 10).
  pose proof (Nat.mod_upper_bound n 10).
  assert (n / 10 < 10)%nat by (apply Nat.Div0.div_lt_upper_bound; lia).
  rewrite (Nat.mod_small (n / 10) 10) by assumption. lia.
Qed.

Lemma parseInt_three n :
  (n < 1000)%nat -> parseInt (Stamp.three n) = inject_Z (Z.of_nat n).
Proof.
  intros H. unfold parseInt, Stamp.three, Stamp.two.
  cbn [list_ascii_of_string fold_left].
  rewrite !nat_of_digit_char. do 2 f_equal.
  pose proof (Nat.div_mod_eq n 10).
  pose proof (Nat.div_mod_eq (n / 10) 10).
  pose proof (Nat.mod_upper_bound n 10).
  pose proof (Nat.mod_upper_bound (n / 10) 10).
  assert (E : (n / 100 = n / 10 / 10)%nat)
    by (rewrite Nat.Div0.div_div; reflexivity).
  assert (n / 100 < 10)%nat by (apply Nat.Div0.div_lt_upper_bound; lia).
  rewrite (Nat.mod_small (n / 100) 10) by assumption. lia.
Qed.

End DigitFacts.

Section StringFacts.

Lemma append_cons c (s t : string) :
  (String c s ++ t)%string = String c (s ++ t).
Proof. reflexivity. Qed.

Lemma append_empty_r (s : string) : (s ++ "")%string = s.
Proof.
  induction s as [|c s IH]; [reflexivity|]. rewrite append_cons, IH.
  reflexivity.
Qed.

Lemma append_assoc (a b c : string) :
  ((a ++ b) ++ c)%string = (a ++ (b ++ c))%string.
Proof.
  induction a as [|x a IH]; [reflexivity|]. rewrite !append_cons, IH.
  reflexivity.
Qed.

Lemma length_append (a b : string) :
  String.length (a ++ b) = (String.length a + String.length b)%nat.
Proof.
  induction a as [|x a IH]; [reflexivity|]. rewrite append_cons.
  cbn [String.length]. rewrite IH. reflexivity.
Qed.

End StringFacts.

Section StampFacts.
Import Subtitles.
Context {R : Type}.
Implicit Types (k : string -> Re.Captures -> option R).

Lemma run_seqs_cons r rs s caps k :
  Re.run (Re.seqs (r :: rs)) s caps k
  = Re.run r s caps (fun s' caps' => Re.run (Re.seqs rs) s' caps' k).
Proof. destruct rs; reflexivity. Qed.

Lemma run_opt_some r s caps k x :
  Re.run r s caps k = Some x -> Re.run (Re.Opt r) s caps k = Some x.
Proof. intros H. cbn [Re.run]. rewrite H. reflexivity. Qed.

Lemma run_spaces_one c s caps k x :
  is_space c = false ->
  k (String c s) caps = Some x ->
  Re.run (Re.StarC is_space) (String " " (String c s)) caps k = Some x.
Proof.
  intros H Hk. cbn [Re.run Re.star].
  change (is_space " ") with true. cbn iota. rewrite H, Hk. reflexivity.
Qed.

Lemma text_cons sep t s :
  (Stamp.text sep t ++ s)%string =
  let h := Stamp.hours t in
  let m := Stamp.minutes t in
  let sec := Stamp.seconds t in
  let ms := Stamp.millis t in
  String (Stamp.digit_char (h / 10)) (String (Stamp.digit_char h)
  (String ":"
  (String (Stamp.digit_char (m / 10)) (String (Stamp.digit_char m)
  (String ":"
  (String (Stamp.digit_char (sec / 10)) (String (Stamp.digit_char sec)
  (String sep
  (String (Stamp.digit_char (ms / 100)) (String (Stamp.digit_char (ms / 10))
  (String (Stamp.digit_char ms) s))))))))))).
Proof. reflexivity. Qed.

Lemma run_srt_stamp sep t rest s caps k :
  comma_or_dot sep = true ->
  Re.run (Re.seqs (srt_stamp ++ rest)) (Stamp.text sep t ++ s) caps k
  = Re.run (Re.seqs rest) s (caps ++ stamp_caps t) k.
Proof.
  intros Hs. rewrite text_cons. cbv zeta. unfold srt_stamp. cbn [app].
  rewrite run_seqs_cons, run_d2 by apply is_digit_digit_char.
  rewrite run_seqs_cons, run_lit.
  rewrite run_seqs_cons, run_d2 by apply is_digit_digit_char.
  rewrite run_seqs_cons, run_lit.
  rewrite run_seqs_cons, run_d2 by apply is_digit_digit_char.
  rewrite run_seqs_cons, run_chr by exact Hs.
  rewrite run_seqs_cons, run_d3 by apply is_digit_digit_char.
  rewrite <- !app_assoc. reflexivity.
Qed.

Lemma run_vtt_stamp t rest s caps k x :
  Re.run (Re.seqs rest) s (caps ++ stamp_caps t) k = Some x ->
  Re.run (Re.seqs (vtt_stamp ++ rest)) (Stamp.text "." t ++ s) caps k
  = Some x.
Proof.
  intros H. rewrite text_cons. cbv zeta. unfold vtt_stamp. cbn [app].
  rewrite run_seqs_cons. apply run_opt_some. cbn [Re.run].
  rewrite run_d2 by apply is_digit_digit_char. rewrite run_lit.
  rewrite run_seqs_cons, run_d2 by apply is_digit_digit_char.
  rewrite run_seqs_cons, run_lit.
  rewrite run_seqs_cons, run_d2 by apply is_digit_digit_char.
  rewrite run_seqs_cons, run_lit.
  rewrite run_seqs_cons, run_d3 by apply is_digit_digit_char.
  rewrite <- !app_assoc. exact H.
Qed.

Lemma run_arrow t sep rest caps k x :
  Re.run (Re.seqs rest) (Stamp.text sep t) caps k = Some x ->
  Re.run (Re.seqs (arrow ++ rest)) (" --> " ++ Stamp.text sep t) caps k
  = Some x.
Proof.
  intros H. unfold arrow. cbn [app].
  rewrite <- (append_empty_r (Stamp.text sep t)) in *.
  rewrite text_cons in *. cbv zeta in *.
  cbv beta iota fix delta [String.append].
  rewrite run_seqs_cons. apply run_spaces_one; [reflexivity|].
  rewrite run_seqs_cons, run_lit.
  rewrite run_seqs_cons, run_lit.
  rewrite run_seqs_cons, run_lit.
  rewrite run_seqs_cons. apply run_spaces_one.
  - apply is_space_digit_char.
  - exact H.
Qed.

End StampFacts.

Section LineFacts.
Import Subtitles.

Lemma search_exec r s n caps :
  Re.exec_at r s = Some (n, caps) -> Re.search r s = Some caps.
Proof. intros H. destruct s; cbn [Re.search]; rewrite H; reflexivity. Qed.

Lemma srt_line_search sep a b :
  comma_or_dot sep = true ->
  Re.search SRT_TIME (Stamp.line sep a b)
  = Some (stamp_caps a ++ stamp_caps b).
Proof.
  intros Hs. eapply search_exec. unfold Re.exec_at, SRT_TIME, Stamp.line.
  rewrite run_srt_stamp by exact Hs.
  apply run_arrow.
  rewrite <- (app_nil_r srt_stamp), <- (append_empty_r (Stamp.text sep b)).
  rewrite run_srt_stamp by exact Hs.
  cbn [Re.seqs Re.run app]. reflexivity.
Qed.

Lemma vtt_line_search a b :
  Re.search VTT_TIME (Stamp.line "." a b)
  = Some (stamp_caps a ++ stamp_caps b).
Proof.
  eapply search_exec. unfold Re.exec_at, VTT_TIME, Stamp.line.
  apply run_vtt_stamp. apply run_arrow.
  rewrite <- (app_nil_r vtt_stamp), <- (append_empty_r (Stamp.text "." b)).
  apply run_vtt_stamp.
  cbn [Re.seqs Re.run app]. reflexivity.
Qed.

Lemma str_includes_append sub a b :
  str_includes sub b = true -> str_includes sub (a ++ b) = true.
Proof.
  intros H. induction a as [|c a IH]; [exact H|].
  rewrite append_cons. cbn [str_includes]. rewrite IH. apply orb_true_r.
Qed.

Lemma line_includes_arrow sep a b :
  str_includes "-->" (Stamp.line sep a b) = true.
Proof.
  unfold Stamp.line. apply str_includes_append.
  rewrite <- (append_empty_r (Stamp.text sep b)), text_cons. reflexivity.
Qed.

Lemma srt_block_with_leading_line newId sep a b first text1 texts :
  Stamp.in_range a -> Stamp.in_range b -> comma_or_dot sep = true ->
  srt_block newId (first :: Stamp.line sep a b :: text1 :: texts)
  = Some (cue_of newId a b (text1 :: texts)).
Proof.
  intros (Ha1 & Ha2 & Ha3 & Ha4) (Hb1 & Hb2 & Hb3 & Hb4) Hs.
  unfold srt_block. cbn [length Nat.ltb Nat.leb nth_error].
  rewrite srt_line_search by exact Hs.
  unfold int_group, group, stamp_caps. cbn [app nth_error Nat.sub].
  rewrite !parseInt_two, !parseInt_three by assumption.
  reflexivity.
Qed.

Lemma srt_block_without_leading_line newId sep a b texts :
  (forall l, nth_error texts 0 = Some l -> Re.search SRT_TIME l = None) ->
  srt_block newId (Stamp.line sep a b :: texts) = None.
Proof.
  intros H. unfold srt_block.
  destruct (length (Stamp.line sep a b :: texts) <? 3)%nat; [reflexivity|].
  cbn [nth_error]. destruct texts as [|l texts]; [reflexivity|].
  cbn [nth_error]. rewrite (H l eq_refl). reflexivity.
Qed.

Lemma vtt_block_plain newId a b texts :
  Stamp.in_range a -> Stamp.in_range b ->
  vtt_block newId (Stamp.line "." a b :: texts)
  = Some (cue_of newId a b texts).
Proof.
  intros (Ha1 & Ha2 & Ha3 & Ha4) (Hb1 & Hb2 & Hb3 & Hb4).
  unfold vtt_block. cbn [find_time_line].
  rewrite line_includes_arrow. cbn [nth_error negb].
  rewrite line_includes_arrow. cbn [negb].
  rewrite vtt_line_search.
  unfold int_group_or_0, int_group, group, stamp_caps.
  cbn [app nth_error Nat.sub Stamp.two str_eqb String.eqb].
  fold (Stamp.two (Stamp.hours a)). fold (Stamp.two (Stamp.hours b)).
  rewrite !parseInt_two, !parseInt_three by assumption.
  reflexivity.
Qed.

Lemma vtt_block_with_id newId a b idLine texts :
  Stamp.in_range a -> Stamp.in_range b ->
  str_includes "-->" idLine = false ->
  vtt_block newId (idLine :: Stamp.line "." a b :: texts)
  = Some (cue_of newId a b texts).
Proof.
  intros (Ha1 & Ha2 & Ha3 & Ha4) (Hb1 & Hb2 & Hb3 & Hb4) Hid.
  unfold vtt_block. cbn [find_time_line].
  rewrite Hid, line_includes_arrow. cbn [nth_error negb].
  rewrite line_includes_arrow. cbn [negb].
  rewrite vtt_line_search.
  unfold int_group_or_0, int_group, group, stamp_caps.
  cbn [app nth_error Nat.sub Stamp.two str_eqb String.eqb].
  fold (Stamp.two (Stamp.hours a)). fold (Stamp.two (Stamp.hours b)).
  rewrite !parseInt_two, !parseInt_three by assumption.
  reflexivity.
Qed.

End LineFacts.

Section StripFacts.
Import Subtitles.

Lemma concat_empty_cons x xs :
  String.concat "" (x :: xs) = (x ++ String.concat "" xs)%string.
Proof.
  destruct xs as [|y ys]; cbn [String.concat].
  - symmetry. apply append_empty_r.
  - reflexivity.
Qed.

Lemma not_includes_cons c0 c s :
  str_includes (String c0 "") (String c s) = false ->
  c0 <> c /\ str_includes (String c0 "") s = false.
Proof.
  cbn [str_includes String.prefix]. intros H.
  apply orb_false_elim in H as [H1 H2]. split; [|exact H2].
  destruct (ascii_dec c0 c) as [E|E]; [|exact E].
  destruct s; discriminate H1.
Qed.

Lemma exec_tag_none c s : "<"%char <> c -> Re.exec_at TAG (String c s) = None.
Proof.
  intros H. unfold Re.exec_at, TAG, Re.lit. cbn [Re.seqs Re.run].
  apply Ascii.eqb_neq in H. rewrite H. reflexivity.
Qed.

Lemma remove_plain p s :
  str_includes "<" p = false ->
  Re.remove_go TAG (p ++ s) 0 = (p ++ Re.remove_go TAG s 0)%string.
Proof.
  induction p as [|c p IH]; intros H; [reflexivity|].
  apply not_includes_cons in H as [Hc Hp].
  rewrite !append_cons. cbn [Re.remove_go].
  rewrite exec_tag_none by exact Hc. rewrite IH by exact Hp. reflexivity.
Qed.

Lemma remove_skip r x s :
  Re.remove_go r (x ++ s) (String.length x) = Re.remove_go r s 0.
Proof.
  induction x as [|c x IH]; [destruct s; reflexivity|].
  rewrite append_cons. cbn [String.length Re.remove_go]. exact IH.
Qed.

Lemma star_through {R} body s (k : string -> option R) x :
  str_includes ">" body = false ->
  k (String ">" s) = Some x ->
  Re.star not_gt (body ++ String ">" s) k = Some x.
Proof.
  intros Hb Hk. induction body as [|c body IH].
  - cbn [String.append Re.star]. exact Hk.
  - apply not_includes_cons in Hb as [Hc Hb].
    rewrite append_cons. cbn [Re.star]. unfold not_gt at 1.
    rewrite Ascii.eqb_sym. apply Ascii.eqb_neq in Hc. rewrite Hc. cbn [negb].
    rewrite (IH Hb). reflexivity.
Qed.

Lemma exec_tag body s :
  body <> EmptyString -> str_includes ">" body = false ->
  Re.exec_at TAG (String "<" (body ++ String ">" s))
  = Some (S (S (String.length body)), []).
Proof.
  intros Hne Hb. destruct body as [|c body]; [contradiction|].
  apply not_includes_cons in Hb as [Hc Hb].
  unfold Re.exec_at, TAG. rewrite append_cons.
  rewrite run_seqs_cons, run_lit.
  rewrite run_seqs_cons, run_chr
    by (unfold not_gt; rewrite Ascii.eqb_sym;
        apply Ascii.eqb_neq in Hc; rewrite Hc; reflexivity).
  rewrite run_seqs_cons. cbn [Re.run].
  apply star_through; [exact Hb|].
  cbn [Re.seqs]. rewrite run_lit. do 2 f_equal.
  cbn [String.length]. rewrite length_append. cbn [String.length]. lia.
Qed.

Lemma remove_tag body s :
  body <> EmptyString -> str_includes ">" body = false ->
  Re.remove_go TAG ("<" ++ body ++ ">" ++ s) 0 = Re.remove_go TAG s 0.
Proof.
  intros Hne Hb. change ("<" ++ body ++ ">" ++ s)%string
    with (String "<" (body ++ String ">" s)).
  cbn [Re.remove_go]. rewrite exec_tag by assumption.
  change (String ">" s) with (">" ++ s)%string.
  rewrite <- append_assoc.
  replace (S (String.length body)) with (String.length (body ++ ">"))
    by (rewrite length_append; cbn [String.length]; lia).
  apply remove_skip.
Qed.

Lemma strip_markup_append ps : forall s,
  Forall piece_ok ps ->
  Re.remove_go TAG (markup ps ++ s) 0
  = (without_markup ps ++ Re.remove_go TAG s 0)%string.
Proof.
  induction ps as [|p ps IH]; intros s H; [reflexivity|].
  inversion H as [|? ? Hp Hps]; subst.
  unfold markup, without_markup in *. cbn [List.map].
  rewrite !concat_empty_cons, !append_assoc.
  destruct p as [t|body]; cbn [piece_text piece_plain piece_ok] in *.
  - rewrite remove_plain by exact Hp. rewrite IH by exact Hps. reflexivity.
  - destruct Hp as [Hne Hb]. rewrite !append_assoc.
    rewrite remove_tag by assumption. rewrite IH by exact Hps. reflexivity.
Qed.

Lemma strip_markup ps :
  Forall piece_ok ps -> stripTags (markup ps) = without_markup ps.
Proof.
  intros H. unfold stripTags, Re.remove_all.
  rewrite <- (append_empty_r (markup ps)), strip_markup_append by exact H.
  cbn [Re.remove_go]. apply append_empty_r.
Qed.

End StripFacts.

Section BlockFacts.
Import Subtitles.

Lemma srt_block_short newId lines :
  (length lines < 3)%nat -> srt_block newId lines = None.
Proof.
  intros H. unfold srt_block.
  destruct (Nat.ltb_spec (length lines) 3) as [_|L]; [reflexivity|lia].
Qed.

Lemma srt_block_parsed_iff newId lines :
  srt_block newId lines <> None <->
  exists l0 timeLine text1 rest,
    lines = l0 :: timeLine :: text1 :: rest /\
    Re.search SRT_TIME timeLine <> None.
Proof.
  split.
  - intros H.
    destruct lines as [|l0 [|timeLine [|text1 rest]]];
      try (exfalso; apply H; apply srt_block_short; cbn; lia).
    exists l0, timeLine, text1, rest. split; [reflexivity|].
    intros E. apply H. unfold srt_block.
    destruct (Nat.ltb_spec (length (l0 :: timeLine :: text1 :: rest)) 3)
      as [_|_]; [reflexivity|].
    cbn [nth_error]. rewrite E. reflexivity.
  - intros (l0 & timeLine & text1 & rest & -> & E). unfold srt_block.
    destruct (Nat.ltb_spec (length (l0 :: timeLine :: text1 :: rest)) 3)
      as [L|_]; [cbn in L; lia|].
    cbn [nth_error]. destruct (Re.search SRT_TIME timeLine); congruence.
Qed.

End BlockFacts.

(** C10 (amended).  A WebVTT cue block is parsed whether or not an id line
    (a line without an arrow) precedes its time line, to the same cue.  An
    SRT cue block is parsed if and only if it has at least three lines
    and its second line holds a time range: with its time line, in the
    comma or the dot variant, as second line and a text line after it the
    cue is read whatever the first line holds; a block of fewer than
    three lines (an index line and a time line with no text, say) is
    dropped; and a block that starts with its time line is dropped
    unless its second line holds a time range of its own.  In both
    formats the cue text is the text lines joined by newlines with every
    tag [<...>] removed. *)
Theorem subtitle_block_parsing (newId : string) (a b : Stamp.t) (sep : ascii)
    (first idLine text1 : string) (texts : list string) (ps : list Piece)
    (lines : list string) :
  Stamp.in_range a -> Stamp.in_range b ->
  Subtitles.comma_or_dot sep = true ->
  str_includes "-->" idLine = false ->
  Forall piece_ok ps ->
  Subtitles.vtt_block newId (Stamp.line "." a b :: texts)
  = Some (cue_of newId a b texts) /\
  Subtitles.vtt_block newId (idLine :: Stamp.line "." a b :: texts)
  = Some (cue_of newId a b texts) /\
  Subtitles.srt_block newId (first :: Stamp.line sep a b :: text1 :: texts)
  = Some (cue_of newId a b (text1 :: texts)) /\
  (Subtitles.srt_block newId lines <> None <->
   exists l0 timeLine t1 rest,
     lines = l0 :: timeLine :: t1 :: rest /\
     Re.search Subtitles.SRT_TIME timeLine <> None) /\
  Subtitles.srt_block newId [first; Stamp.line sep a b] = None /\
  ((forall l, nth_error texts 0 = Some l ->
      Re.search Subtitles.SRT_TIME l = None) ->
   Subtitles.srt_block newId (Stamp.line sep a b :: texts) = None) /\
  Subtitles.stripTags (markup ps) = without_markup ps.
Proof.
  intros Ha Hb Hs Hid Hps.
  split; [|split; [|split; [|split; [|split; [|split]]]]].
  - apply vtt_block_plain; assumption.
  - apply vtt_block_with_id; assumption.
  - apply srt_block_with_leading_line; assumption.
  - apply srt_block_parsed_iff.
  - apply srt_block_short. cbn. lia.
  - apply srt_block_without_leading_line.
  - apply strip_markup. exact Hps.
Qed.

Lemma subtitle_block_parsing_witness :
  let a := Sample.one_second in
  let b := Sample.two_and_a_half in
  let texts := ["Hello <b>there</b>"; "World"]%string in
  Subtitles.vtt_block "c" (Stamp.line "." a b :: texts)
  = Some (cue_of "c" a b texts) /\
  Subtitles.vtt_block "c" ("7"%string :: Stamp.line "." a b :: texts)
  = Some (cue_of "c" a b texts) /\
  Subtitles.srt_block "c"
    ("7"%string :: Stamp.line "," a b :: "first"%string :: texts)
  = Some (cue_of "c" a b ("first"%string :: texts)) /\
  Subtitles.srt_block "c" ["7"%string; Stamp.line "," a b] = None /\
  Subtitles.stripTags (markup [plain "Hello "; tag "b"; plain "there"; tag "/b"])
  = "Hello there"%string.
Proof.
  cbv zeta.
  destruct (subtitle_block_parsing "c" Sample.one_second
              Sample.two_and_a_half "," "7" "7" "first"
              ["Hello <b>there</b>"; "World"]%string
              [plain "Hello "; tag "b"; plain "there"; tag "/b"] [])
    as (H1 & H2 & H3 & _ & H4 & _ & H5).
  - unfold Stamp.in_range; cbn; lia.
  - unfold Stamp.in_range; cbn; lia.
  - reflexivity.
  - reflexivity.
  - repeat constructor; discriminate.
  - split; [exact H1|]. split; [exact H2|]. split; [exact H3|].
    split; [exact H4|exact H5].
Defined.

(** C10, as stated, fails for SRT: a cue block without the leading index
    line is dropped, although the same block with an index line, and the
    same block in WebVTT without an id line, are parsed. *)
Lemma srt_block_without_index_is_dropped :
  fst (Subtitles.parseSRT Sample.gen Sample.srt_cue_no_index 0) = [] /\
  List.map Cue.text
    (fst (Subtitles.parseSRT Sample.gen
            ("1" ++ newline ++ Sample.srt_cue_no_index) 0))
  = [("Hello there" ++ newline ++ "World")%string] /\
  List.map Cue.text
    (fst (Subtitles.parseSubtitles Sample.gen Sample.vtt_cue_no_id 0))
  = [("Hello there" ++ newline ++ "World")%string].
Proof. split; [|split]; vm_compute; reflexivity. Qed.
